(** * BE-NC-Games: the review query layer

    A shallow embedding of [models/reviews-models.js].  Every exported
    function of that file sends one or two parameterised SQL statements
    through [db.query] and post-processes the rows in a [.then] callback.
    The embedding has three layers:

    - the tables ([Db]) and the storage layer's view of a statement
      parameter (a text that the server coerces to the column type);
    - [db.query], one primitive per SQL statement of the file, written as
      the relational pipeline the statement denotes, over a connection
      state that also records which statements were sent;
    - the exported functions, as promise chains over these primitives. *)

From Stdlib Require Import ZArith List String Ascii Bool Lia.
From Stdlib Require Import Sorted Permutation.
Import ListNotations.

Local Open Scope string_scope.
Local Open Scope list_scope.
Local Open Scope Z_scope.

(** ** Decimal texts

    PostgreSQL sends an integer as its decimal text, and receives every
    statement parameter as a text.  JavaScript's [parseInt] reads the
    first one back. *)

Definition digit_char (d : Z) : ascii :=
  ascii_of_nat (48 + Z.to_nat d).

Definition digit_of (c : ascii) : option Z :=
  let n := Z.of_nat (nat_of_ascii c) in
  if (48 <=? n) && (n <=? 57) then Some (n - 48) else None.

(** Hexadecimal digit, for [parseInt]'s [0x] prefix. *)
Definition hex_digit_of (c : ascii) : option Z :=
  let n := Z.of_nat (nat_of_ascii c) in
  if (48 <=? n) && (n <=? 57) then Some (n - 48)
  else if (97 <=? n) && (n <=? 102) then Some (n - 87)
  else if (65 <=? n) && (n <=? 70) then Some (n - 55)
  else None.

(** The digits of [n], most significant first, pushed in front of [acc]. *)
Fixpoint digits_fuel (fuel : nat) (n : Z) (acc : string) : string :=
  match fuel with
  | O => acc
  | S fuel' =>
      let acc' := String (digit_char (n mod 10)) acc in
      if n / 10 =? 0 then acc' else digits_fuel fuel' (n / 10) acc'
  end.

(** A text made of decimal digits only. *)
Fixpoint all_digits (s : string) : bool :=
  match s with
  | EmptyString => true
  | String c s' =>
      match digit_of c with
      | Some _ => all_digits s'
      | None => false
      end
  end.

(** [int8out]/[int4out]: the text PostgreSQL sends for an integer. *)
Definition int_out (n : Z) : string :=
  if n <? 0
  then String "-" (digits_fuel (S (Z.to_nat (Z.log2 (- n)))) (- n) "")
  else digits_fuel (S (Z.to_nat (Z.log2 n))) n "".

(** The value of the longest prefix of [s] made of radix-[radix] digits,
    continuing from [acc]; [seen] tells whether a digit was read. *)
Fixpoint digits_prefix (digit : ascii -> option Z) (radix : Z)
    (s : string) (seen : bool) (acc : Z) : option Z :=
  match s with
  | EmptyString => if seen then Some acc else None
  | String c s' =>
      match digit c with
      | Some d => digits_prefix digit radix s' true (acc * radix + d)
      | None => if seen then Some acc else None
      end
  end.

Definition is_space (c : ascii) : bool :=
  let n := nat_of_ascii c in
  (Nat.eqb n 32 || (Nat.leb 9 n && Nat.leb n 13))%bool.

Fixpoint skip_spaces (s : string) : string :=
  match s with
  | String c s' => if is_space c then skip_spaces s' else s
  | EmptyString => s
  end.

(** A JavaScript number, as far as this file uses one: an integer or NaN.
    Integers are exact here; a double is exact up to 2^53. *)
Inductive JsNumber :=
| NaN
| Num (z : Z).

(** An optional sign in front of a numeral. *)
Definition split_sign (s : string) : Z * string :=
  match s with
  | String "-" r => (-1, r)
  | String "+" r => (1, r)
  | _ => (1, s)
  end.

(** The numeral [parseInt] reads when no radix is given: [0x] or [0X]
    selects radix 16, otherwise radix 10; the longest prefix of digits
    counts, and there is no number when that prefix is empty. *)
Definition numeral_prefix (s : string) : option Z :=
  match s with
  | String "0" (String "x" r) => digits_prefix hex_digit_of 16 r false 0
  | String "0" (String "X" r) => digits_prefix hex_digit_of 16 r false 0
  | _ => digits_prefix digit_of 10 s false 0
  end.

(** [parseInt(s)] with no radix argument: leading white space is dropped,
    then an optional sign, then the numeral is read; NaN when there is
    none. *)
Definition parseInt (s : string) : JsNumber :=
  let '(sign, s') := split_sign (skip_spaces s) in
  match numeral_prefix s' with
  | Some v => Num (sign * v)
  | None => NaN
  end.

(** ** The storage layer's coercion of a parameter

    The statements compare [$n] with an [INT] column, so the server reads
    the parameter's text with the integer input routine: optional white
    space around an optional sign and at least one decimal digit, within
    the 32-bit range.  SQLSTATE 22P02 is [invalid_text_representation],
    22003 is [numeric_value_out_of_range]. *)

Definition int4_min : Z := -2147483648.
Definition int4_max : Z := 2147483647.

Definition in_int4 (z : Z) : bool := (int4_min <=? z) && (z <=? int4_max).

(** All of [s] is decimal digits followed by white space only. *)
Fixpoint digits_then_spaces (s : string) (seen : bool) (acc : Z) : option Z :=
  match s with
  | EmptyString => if seen then Some acc else None
  | String c s' =>
      match digit_of c with
      | Some d => digits_then_spaces s' true (acc * 10 + d)
      | None =>
          if seen && (skip_spaces s =? "")%string then Some acc else None
      end
  end.

Definition int4in (s : string) : Z + string :=
  let '(sign, s') := split_sign (skip_spaces s) in
  match digits_then_spaces s' false 0 with
  | Some v => if in_int4 (sign * v) then inl (sign * v) else inr "22003"
  | None => inr "22P02"
  end.

(** ** The tables

    Columns as in the spec's data model; a timestamp is a count of time
    units since the epoch. *)

Record Category := { slug : string; description : string }.

Record User := { username : string; name : string; avatar_url : string }.

Module Review.
Record t := mk {
  review_id : Z;
  title : string;
  category : string;
  designer : string;
  owner : string;
  review_body : string;
  review_img_url : string;
  created_at : Z;
  votes : Z
}.
End Review.

Module Comment.
Record t := mk {
  comment_id : Z;
  author : string;
  review_id : Z;
  body : string;
  votes : Z;
  created_at : Z
}.

Definition set_votes (v : Z) (c : t) : t :=
  mk (comment_id c) (author c) (review_id c) (body c) v (created_at c).
End Comment.

Record Db := {
  categories : list Category;
  users : list User;
  reviews : list Review.t;
  comments : list Comment.t
}.

(** [review_id] is the primary key of [reviews]: the statement of
    [selectReviews] selects [reviews.*] while grouping by it, which the
    server accepts for a primary key only. *)
Definition reviews_pkey (d : Db) : Prop :=
  NoDup (map Review.review_id (reviews d)).

(** ** Promises over a connection *)

(** What a promise is rejected with: the object literal the model file
    builds, or the driver's error carrying the server's SQLSTATE. *)
Inductive Rejection :=
| HttpError (status : Z) (msg : string)
| PgError (code : string).

Inductive Outcome (A : Type) :=
| Resolved (a : A)
| Rejected (e : Rejection).
Arguments Resolved {A} a.
Arguments Rejected {A} e.

(** The statements of the file, with their parameter arrays. *)
Inductive Statement :=
| SelectReviewsCounted
| SelectReviewById (p1 : string)
| SelectCommentsByReview (p1 : string)
| UpdateCommentVotes (p1 p2 : string)
| InsertComment (p1 p2 p3 : string)
| SelectCategories
| SelectUsers.

(** The connection: the tables, the server's clock and the next value of
    the [comment_id] sequence, and the statements sent so far (oldest
    first). *)
Record Conn := {
  db : Db;
  now : Z;
  comment_id_seq : Z;
  sent : list Statement
}.

Definition Promise (A : Type) : Type := Conn -> Outcome A * Conn.

Definition resolve {A} (a : A) : Promise A := fun c => (Resolved a, c).

Definition reject {A} (e : Rejection) : Promise A := fun c => (Rejected e, c).

(** [p.then(k)] where [k] returns a value or a promise. *)
Definition andThen {A B} (p : Promise A) (k : A -> Promise B) : Promise B :=
  fun c =>
    match p c with
    | (Resolved a, c') => k a c'
    | (Rejected e, c') => (Rejected e, c')
    end.

Notation "x <- p ;; k" := (andThen p (fun x => k))
  (at level 100, p at next level, right associativity).

Definition send (s : Statement) (c : Conn) : Conn :=
  {| db := db c; now := now c; comment_id_seq := comment_id_seq c;
     sent := sent c ++ [s] |}.

Definition with_comments (cs : list Comment.t) (c : Conn) : Conn :=
  {| db := {| categories := categories (db c); users := users (db c);
              reviews := reviews (db c); comments := cs |};
     now := now c; comment_id_seq := comment_id_seq c; sent := sent c |}.

(** ** [db.query]: the statements

    A statement parameter is the text the driver sends for it: a string
    as it is (a path segment of the request), a number as its decimal
    text.  Each primitive records its statement in [sent], also when the
    server refuses a parameter. *)

(** *** Ordering

    [ORDER BY key DESC].  The server promises nothing about rows with
    equal keys; the model keeps them in their incoming order. *)
Section OrderBy.
Context {A : Type} (key : A -> Z).

Fixpoint insert_desc (x : A) (l : list A) : list A :=
  match l with
  | [] => [x]
  | y :: l' => if key y <=? key x then x :: l else y :: insert_desc x l'
  end.

Definition order_by_desc (l : list A) : list A :=
  fold_right insert_desc [] l.

(** Non-increasing keys across the whole sequence. *)
Definition sorted_desc (l : list A) : Prop :=
  StronglySorted (fun a b => key b <= key a) l.
End OrderBy.

(** *** The counted listing

    [SELECT reviews.*, COUNT(comments.review_id) AS comment_count
     FROM reviews LEFT JOIN comments
     ON reviews.review_id = comments.review_id
     GROUP BY reviews.review_id ORDER BY reviews.created_at DESC] *)

(** A row of the join: a review and a comment of it, or NULLs. *)
Definition JoinRow : Type := Review.t * option Comment.t.

Definition on_review (r : Review.t) (c : Comment.t) : bool :=
  Review.review_id r =? Comment.review_id c.

(** The rows a review contributes: one per comment on it, and one with
    NULLs for the comment columns when it has none. *)
Definition join_rows (cs : list Comment.t) (r : Review.t) : list JoinRow :=
  match filter (on_review r) cs with
  | [] => [(r, None)]
  | ms => map (fun c => (r, Some c)) ms
  end.

Definition left_join (rs : list Review.t) (cs : list Comment.t) : list JoinRow :=
  flat_map (join_rows cs) rs.

(** A group of [GROUP BY reviews.review_id]: [reviews.*] is read off the
    row that opened the group. *)
Record Group := { g_review : Review.t; g_rows : list JoinRow }.

Fixpoint add_to_groups (row : JoinRow) (gs : list Group) : list Group :=
  match gs with
  | [] => [ {| g_review := fst row; g_rows := [row] |} ]
  | g :: gs' =>
      if Review.review_id (g_review g) =? Review.review_id (fst row)
      then {| g_review := g_review g; g_rows := g_rows g ++ [row] |} :: gs'
      else g :: add_to_groups row gs'
  end.

Definition group_by_review_id (rows : list JoinRow) : list Group :=
  fold_left (fun gs row => add_to_groups row gs) rows [].

(** [COUNT(comments.review_id)]: the rows of the group where that column
    is not NULL. *)
Definition not_null (row : JoinRow) : bool :=
  match snd row with
  | Some _ => true
  | None => false
  end.

Definition count_review_id (g : Group) : Z :=
  Z.of_nat (List.length (filter not_null (g_rows g))).

(** A row of the listing; [C] is the JavaScript type of [comment_count]:
    the driver delivers a [bigint] as a string. *)
Record ReviewRow (C : Type) := {
  row_review : Review.t;
  comment_count : C
}.
Arguments row_review {C} _.
Arguments comment_count {C} _.

Definition row_created_at {C} (row : ReviewRow C) : Z :=
  Review.created_at (row_review row).

Definition reviews_counted (d : Db) : list (ReviewRow string) :=
  order_by_desc row_created_at
    (map (fun g => {| row_review := g_review g;
                      comment_count := int_out (count_review_id g) |})
         (group_by_review_id (left_join (reviews d) (comments d)))).

Definition query_reviews_counted : Promise (list (ReviewRow string)) :=
  fun c => (Resolved (reviews_counted (db c)), send SelectReviewsCounted c).

(** *** [SELECT * FROM reviews WHERE review_id = $1] *)
Definition query_review_by_id (p1 : string) : Promise (list Review.t) :=
  fun c =>
    let c' := send (SelectReviewById p1) c in
    match int4in p1 with
    | inl id =>
        (Resolved (filter (fun r => Review.review_id r =? id) (reviews (db c))),
         c')
    | inr code => (Rejected (PgError code), c')
    end.

(** *** [SELECT * FROM comments WHERE review_id = $1
         ORDER BY comments.created_at DESC] *)
Definition query_comments_by_review (p1 : string) : Promise (list Comment.t) :=
  fun c =>
    let c' := send (SelectCommentsByReview p1) c in
    match int4in p1 with
    | inl id =>
        (Resolved
           (order_by_desc Comment.created_at
              (filter (fun cm => Comment.review_id cm =? id) (comments (db c)))),
         c')
    | inr code => (Rejected (PgError code), c')
    end.

(** *** [UPDATE comments SET votes = votes + $1 WHERE review_id = $2
         RETURNING *]

    The statement is atomic: when a new [votes] leaves the 32-bit range
    it fails and no row changes. *)
Definition query_update_votes (p1 p2 : string) : Promise (list Comment.t) :=
  fun c =>
    let c' := send (UpdateCommentVotes p1 p2) c in
    match int4in p1, int4in p2 with
    | inl inc, inl id =>
        let hit := fun cm => Comment.review_id cm =? id in
        let cs' :=
          map (fun cm =>
                 if hit cm
                 then Comment.set_votes (Comment.votes cm + inc) cm
                 else cm)
              (comments (db c)) in
        if forallb (fun cm => in_int4 (Comment.votes cm)) (filter hit cs')
        then (Resolved (filter hit cs'), with_comments cs' c')
        else (Rejected (PgError "22003"), c')
    | inr code, _ => (Rejected (PgError code), c')
    | _, inr code => (Rejected (PgError code), c')
    end.

(** ** The exported functions of [models/reviews-models.js] *)

Definition selectReviews : Promise (list (ReviewRow JsNumber)) :=
  reviewArr <- query_reviews_counted ;;
  resolve
    (map (fun review =>
            {| row_review := row_review review;
               comment_count := parseInt (comment_count review) |})
         reviewArr).

Definition no_review_found (reviewId : string) : Rejection :=
  HttpError 404 ("No review found for review " ++ reviewId)%string.

Definition selectReviewFromId (reviewId : string) : Promise Review.t :=
  rows <- query_review_by_id reviewId ;;
  match nth_error rows 0 with
  | None => reject (no_review_found reviewId)
  | Some review => resolve review
  end.

Definition selectCommentsFromReview (reviewId : string)
  : Promise (list Comment.t) :=
  rows <- query_review_by_id reviewId ;;
  if (List.length rows =? 0)%nat
  then reject (no_review_found reviewId)
  else (rows' <- query_comments_by_review reviewId ;; resolve rows').

(** The parameter array is [[review_id, inc_votes]]: [$1] is [review_id]
    and [$2] is [inc_votes].  [undefined] is [None]. *)
Definition patchComment (review_id inc_votes : string)
  : Promise (option Comment.t) :=
  rows <- query_update_votes review_id inc_votes ;;
  resolve (nth_error rows 0).

(** ** Comment creation and the plain listings *)

(** A value of a request body. *)
Inductive Json :=
| JNumber (z : Z)
| JString (s : string).

(** The parsed request body, an untyped object. *)
Definition Body : Type := list (string * Json).

Fixpoint field (k : string) (o : Body) : option Json :=
  match o with
  | [] => None
  | (k', v) :: o' => if (k' =? k)%string then Some v else field k o'
  end.

(** Modelled from the spec: the shape validation of comment creation is
    missing from the sources; a required field is refused when it is
    absent or empty, and is otherwise handed to the driver, which sends a
    number as its decimal text. *)
Definition required (v : option Json) : option string :=
  match v with
  | None => None
  | Some (JString s) => if (s =? "")%string then None else Some s
  | Some (JNumber z) => Some (int_out z)
  end.

(** Modelled from the spec: the INSERT statement of comment creation is
    missing from the sources.  [comment_id] is drawn from the sequence,
    [created_at] is the server's clock, [votes] has the column default 0,
    and a foreign key without its row fails with SQLSTATE 23503. *)
Definition query_insert_comment (p_author p_review_id p_body : string)
  : Promise Comment.t :=
  fun c =>
    let c' := send (InsertComment p_author p_review_id p_body) c in
    match int4in p_review_id with
    | inr code => (Rejected (PgError code), c')
    | inl id =>
        let c'' :=
          {| db := db c'; now := now c';
             comment_id_seq := comment_id_seq c' + 1; sent := sent c' |} in
        if existsb (fun u => (username u =? p_author)%string) (users (db c))
           && existsb (fun r => Review.review_id r =? id) (reviews (db c))
        then
          let row :=
            Comment.mk (comment_id_seq c) p_author id p_body 0 (now c) in
          (Resolved row, with_comments (comments (db c) ++ [row]) c'')
        else (Rejected (PgError "23503"), c'')
    end.

(** Modelled from the spec: the translation of the storage layer's errors
    of comment creation is missing from the sources. *)
Definition translate (e : Rejection) : Rejection :=
  match e with
  | PgError code =>
      if (code =? "23503")%string then HttpError 404 "Not found"
      else if (code =? "22P02")%string then HttpError 400 "Bad request"
      else e
  | HttpError _ _ => e
  end.

Definition incomplete : Rejection :=
  HttpError 400 "Bad request - incomplete information".

(** Modelled from the spec: [insertComment] is missing from the sources.
    It refuses an absent or empty [username] or [body] before anything is
    sent, then inserts. *)
Definition insertComment (reviewId : string) (username body : option Json)
  : Promise Comment.t :=
  match required username, required body with
  | Some author, Some text =>
      fun c =>
        match query_insert_comment author reviewId text c with
        | (Rejected e, c') => (Rejected (translate e), c')
        | ok => ok
        end
  | _, _ => reject incomplete
  end.

(** Modelled from the spec: the handler of
    [POST /api/reviews/:review_id/comments] is missing from the sources.
    It reads [username] and [body] off the request body and nothing else. *)
Definition postComment (review_id : string) (payload : Body)
  : Promise Comment.t :=
  insertComment review_id (field "username" payload) (field "body" payload).

(** Modelled from the spec: [listCategories] is missing from the sources;
    one SELECT over [categories]. *)
Definition selectCategories : Promise (list Category) :=
  fun c => (Resolved (categories (db c)), send SelectCategories c).

(** Modelled from the spec: [listUsers] is missing from the sources; one
    SELECT over [users]. *)
Definition selectUsers : Promise (list User) :=
  fun c => (Resolved (users (db c)), send SelectUsers c).

(** Running a promise [n] times in a row on the same connection. *)
Fixpoint again {A} (n : nat) (p : Promise A) (c : Conn) : Conn :=
  match n with
  | O => c
  | S n' => snd (p (again n' p c))
  end.

(** ** Vocabulary of the properties *)

(** The number of comment rows whose [review_id] is that of [r]. *)
Definition comment_total (d : Db) (r : Review.t) : Z :=
  Z.of_nat
    (List.length
       (filter (fun cm => Comment.review_id cm =? Review.review_id r)
          (comments d))).

(** The grouping column, of a group and of a row of the join. *)
Definition group_key (g : Group) : Z := Review.review_id (g_review g).

Definition row_key (row : JoinRow) : Z := Review.review_id (fst row).

(** A promise that leaves the tables alone and whose outcome is a
    function of the tables. *)
Definition reads_only {A} (p : Promise A) : Prop :=
  forall c,
    db (snd (p c)) = db c
    /\ forall c', db c' = db c -> fst (p c') = fst (p c).

(** However often the promise is run in a row, the tables stay as they
    were and the next run has the outcome of the first. *)
Definition repeatable {A} (p : Promise A) : Prop :=
  forall (n : nat) (c : Conn),
    db (again n p c) = db c /\ fst (p (again n p c)) = fst (p c).

(** A review row matches the parameter when the storage layer reads the
    parameter as that row's id. *)
Definition row_matches (reviewId : string) (r : Review.t) : Prop :=
  int4in reviewId = inl (Review.review_id r).

(** The table has a review with this id. *)
Definition review_exists (d : Db) (id : Z) : Prop :=
  exists r, In r (reviews d) /\ Review.review_id r = id.

(** What the UPDATE makes of a row: [votes + inc] where [review_id] is
    [id], the row itself elsewhere. *)
Definition bump (inc id : Z) (cm : Comment.t) : Comment.t :=
  if Comment.review_id cm =? id
  then Comment.set_votes (Comment.votes cm + inc) cm
  else cm.


(** [comments.review_id] references [reviews]. *)
Definition comments_fkey (d : Db) : Prop :=
  forall cm, In cm (comments d) -> review_exists d (Comment.review_id cm).

(** The sum of the [comment_count]s of a listing (a NaN counts 0). *)
Definition count_value (n : JsNumber) : Z :=
  match n with
  | Num z => z
  | NaN => 0
  end.

Definition count_sum (rows : list (ReviewRow JsNumber)) : Z :=
  fold_right (fun row acc => count_value (comment_count row) + acc) 0 rows.

(** A sum over the reviews of a table. *)
Definition sum_over (f : Review.t -> Z) (rs : list Review.t) : Z :=
  fold_right (fun r acc => f r + acc) 0 rs.

(** ** A fixture *)

Definition rev (id : Z) (t : string) (at_ : Z) : Review.t :=
  Review.mk id t "dexterity" "designer" "mallionaire" "body" "url" at_ 0.

Definition com (id rid votes at_ : Z) : Comment.t :=
  Comment.mk id "mallionaire" rid "text" votes at_.

Definition fixture : Db :=
  {| categories := [ {| slug := "dexterity"; description := "d" |} ];
     users := [ {| username := "mallionaire"; name := "haz";
                   avatar_url := "a" |} ];
     reviews := [ rev 1 "Agricola" 100; rev 2 "Jenga" 300; rev 3 "Ultimate" 200 ];
     comments := [ com 1 2 16 10; com 2 3 13 50; com 3 3 10 40;
                   com 4 2 16 60; com 5 2 13 30; com 6 3 10 70 ] |}.

Definition conn0 : Conn :=
  {| db := fixture; now := 1000; comment_id_seq := 7; sent := [] |}.

(** * Properties *)

(** ** The fixture, run

    The fixture follows the test data as the test suite describes it:
    review 1 has no comment, reviews 2 and 3 have three each. *)

Example selectReviews_fixture :
  fst (selectReviews conn0)
  = Resolved
      [ {| row_review := rev 2 "Jenga" 300; comment_count := Num 3 |};
        {| row_review := rev 3 "Ultimate" 200; comment_count := Num 3 |};
        {| row_review := rev 1 "Agricola" 100; comment_count := Num 0 |} ].
Proof. reflexivity. Qed.

Example selectReviewFromId_fixture_absent :
  selectReviewFromId "100" conn0
  = (Rejected (HttpError 404 "No review found for review 100"),
     send (SelectReviewById "100") conn0).
Proof. reflexivity. Qed.

Example selectCommentsFromReview_fixture :
  fst (selectCommentsFromReview "3" conn0)
  = Resolved [ com 6 3 10 70; com 2 3 13 50; com 3 3 10 40 ].
Proof. reflexivity. Qed.

Example selectCommentsFromReview_fixture_absent :
  selectCommentsFromReview "1000" conn0
  = (Rejected (HttpError 404 "No review found for review 1000"),
     send (SelectReviewById "1000") conn0).
Proof. reflexivity. Qed.

Example int4in_texts :
  int4in "42" = inl 42 /\ int4in " -7 " = inl (-7)
  /\ int4in "notAnId" = inr "22P02" /\ int4in "" = inr "22P02"
  /\ int4in "4.5" = inr "22P02" /\ int4in "2147483648" = inr "22003".
Proof. repeat split. Qed.

Example parseInt_texts :
  parseInt "3" = Num 3 /\ parseInt "  -12px" = Num (-12)
  /\ parseInt "0x1F" = Num 31 /\ parseInt "px" = NaN.
Proof. repeat split. Qed.

Example postComment_fixture :
  fst (postComment "3"
         [("username", JString "mallionaire"); ("body", JString "Great game!")]
         conn0)
  = Resolved (Comment.mk 7 "mallionaire" 3 "Great game!" 0 1000)
  /\ fst (postComment "1000"
            [("username", JString "mallionaire");
             ("body", JString "Great game!")]
            conn0)
     = Rejected (HttpError 404 "Not found")
  /\ fst (postComment "not-a-number"
            [("username", JString "mallionaire");
             ("body", JString "Great game!")]
            conn0)
     = Rejected (HttpError 400 "Bad request").
Proof. repeat split. Qed.

(** ** Decimal texts read back *)

Lemma digit_of_digit_char (d : Z) :
  0 <= d < 10 -> digit_of (digit_char d) = Some d.
Proof.
  intros H.
  assert (E : d = 0 \/ d = 1 \/ d = 2 \/ d = 3 \/ d = 4 \/ d = 5 \/ d = 6
              \/ d = 7 \/ d = 8 \/ d = 9) by lia.
  repeat (destruct E as [E | E]; [subst d; reflexivity |]).
  subst d; reflexivity.
Qed.

Lemma digits_fuel_S (fuel : nat) (n : Z) (acc : string) :
  digits_fuel (S fuel) n acc =
    if n / 10 =? 0 then String (digit_char (n mod 10)) acc
    else digits_fuel fuel (n / 10) (String (digit_char (n mod 10)) acc).
Proof. reflexivity. Qed.

Lemma all_digits_String (c : ascii) (s : string) :
  all_digits (String c s) =
    match digit_of c with Some _ => all_digits s | None => false end.
Proof. reflexivity. Qed.

Lemma digits_prefix_String digit radix c s seen acc :
  digits_prefix digit radix (String c s) seen acc =
    match digit c with
    | Some d => digits_prefix digit radix s true (acc * radix + d)
    | None => if seen then Some acc else None
    end.
Proof. reflexivity. Qed.

Lemma all_digits_digits_fuel (fuel : nat) :
  forall n acc,
    all_digits acc = true -> all_digits (digits_fuel fuel n acc) = true.
Proof.
  induction fuel as [| fuel IH]; intros n acc Hacc; [exact Hacc |].
  rewrite digits_fuel_S.
  assert (Hd : all_digits (String (digit_char (n mod 10)) acc) = true).
  { rewrite all_digits_String,
      digit_of_digit_char by (apply Z.mod_pos_bound; lia).
    exact Hacc. }
  destruct (n / 10 =? 0); [exact Hd | apply IH; exact Hd].
Qed.

Lemma digits_fuel_nonempty (fuel : nat) :
  forall n acc, digits_fuel (S fuel) n acc <> "".
Proof.
  induction fuel as [| fuel IH]; intros n acc; rewrite digits_fuel_S;
    destruct (n / 10 =? 0); try discriminate.
  apply IH.
Qed.

(** Reading the digits that [digits_fuel] wrote gives the number back,
    provided the fuel covers the number. *)
Lemma digits_prefix_digits_fuel (fuel : nat) :
  forall n acc seen,
    0 <= n < 2 ^ Z.of_nat (S fuel) ->
    digits_prefix digit_of 10 (digits_fuel (S fuel) n acc) seen 0
    = digits_prefix digit_of 10 acc true n.
Proof.
  induction fuel as [| fuel IH]; intros n acc seen Hn.
  - rewrite digits_fuel_S.
    assert (Hm : 0 <= n mod 10 < 10) by (apply Z.mod_pos_bound; lia).
    assert (Hq : n = 10 * (n / 10) + n mod 10) by (apply Z.div_mod; lia).
    assert (H0 : 0 <= n / 10) by (apply Z.div_pos; lia).
    destruct (Z.eqb_spec (n / 10) 0) as [E | E].
    + rewrite digits_prefix_String, digit_of_digit_char by exact Hm.
      f_equal. lia.
    + change (2 ^ Z.of_nat 1) with 2 in Hn. lia.
  - rewrite digits_fuel_S.
    assert (Hm : 0 <= n mod 10 < 10) by (apply Z.mod_pos_bound; lia).
    assert (Hq : n = 10 * (n / 10) + n mod 10) by (apply Z.div_mod; lia).
    assert (H0 : 0 <= n / 10) by (apply Z.div_pos; lia).
    destruct (Z.eqb_spec (n / 10) 0) as [E | E].
    + rewrite digits_prefix_String, digit_of_digit_char by exact Hm.
      f_equal. lia.
    + rewrite IH.
      * rewrite digits_prefix_String, digit_of_digit_char by exact Hm.
        f_equal. lia.
      * assert (Hp : 2 ^ Z.of_nat (S (S fuel)) = 2 * 2 ^ Z.of_nat (S fuel)).
        { rewrite (Nat2Z.inj_succ (S fuel)), Z.pow_succ_r by lia.
          reflexivity. }
        lia.
Qed.

(** A decimal digit is no white space, no sign and no radix mark. *)
Lemma digit_plain (c : ascii) (d : Z) :
  digit_of c = Some d ->
  is_space c = false /\ c <> "-"%char /\ c <> "+"%char
  /\ c <> "x"%char /\ c <> "X"%char.
Proof.
  intros H.
  destruct c as [[] [] [] [] [] [] [] []];
    try (vm_compute in H; discriminate H);
    repeat split; try reflexivity; discriminate.
Qed.

Lemma split_sign_plain (c : ascii) (s : string) :
  c <> "-"%char -> c <> "+"%char -> split_sign (String c s) = (1, String c s).
Proof.
  intros Hm Hp.
  destruct c as [[] [] [] [] [] [] [] []]; try reflexivity; congruence.
Qed.

Lemma numeral_prefix_decimal (s : string) :
  all_digits s = true ->
  numeral_prefix s = digits_prefix digit_of 10 s false 0.
Proof.
  intros Hs.
  destruct s as [| c [| c' s'']]; [reflexivity | |].
  - destruct c as [[] [] [] [] [] [] [] []]; reflexivity.
  - rewrite !all_digits_String in Hs.
    destruct (digit_of c) as [d |]; [| discriminate].
    destruct (digit_of c') as [d' |] eqn:Ec'; [| discriminate].
    destruct (digit_plain c' d' Ec') as (_ & _ & _ & Hx & HX).
    destruct c as [[] [] [] [] [] [] [] []]; try reflexivity.
    destruct c' as [[] [] [] [] [] [] [] []]; try reflexivity; congruence.
Qed.

(** On a non-empty text of decimal digits [parseInt] has no white space to
    drop, no sign and no [0x] prefix to see. *)
Lemma parseInt_all_digits (s : string) :
  all_digits s = true -> s <> "" ->
  parseInt s =
    match digits_prefix digit_of 10 s false 0 with
    | Some v => Num v
    | None => NaN
    end.
Proof.
  intros Hs Hne.
  unfold parseInt.
  destruct s as [| c s']; [congruence |].
  pose proof Hs as Hs'.
  rewrite all_digits_String in Hs'.
  destruct (digit_of c) as [d |] eqn:Ec; [| discriminate].
  destruct (digit_plain c d Ec) as (Hsp & Hm & Hp & _).
  replace (skip_spaces (String c s')) with (String c s')
    by (simpl; rewrite Hsp; reflexivity).
  rewrite split_sign_plain, numeral_prefix_decimal by assumption.
  destruct (digits_prefix digit_of 10 (String c s') false 0) as [v |];
    [rewrite Z.mul_1_l |]; reflexivity.
Qed.

(** The decimal text of a natural number reads back as the number. *)
Lemma digits_prefix_decimal (n : Z) :
  0 <= n ->
  digits_prefix digit_of 10
    (digits_fuel (S (Z.to_nat (Z.log2 n))) n "") false 0
  = Some n.
Proof.
  intros Hn.
  rewrite digits_prefix_digits_fuel; [reflexivity |].
  rewrite Nat2Z.inj_succ, Z2Nat.id by apply Z.log2_nonneg.
  destruct (Z.eq_dec n 0) as [-> | Hz]; [simpl; lia |].
  pose proof (Z.log2_spec n). lia.
Qed.

Lemma parseInt_int_out (n : Z) : 0 <= n -> parseInt (int_out n) = Num n.
Proof.
  intros Hn. unfold int_out.
  destruct (Z.ltb_spec n 0) as [Hlt | _]; [lia |].
  rewrite parseInt_all_digits.
  - rewrite digits_prefix_decimal by exact Hn. reflexivity.
  - apply all_digits_digits_fuel. reflexivity.
  - apply digits_fuel_nonempty.
Qed.

(** ** Parameters in canonical form *)

Lemma digits_then_spaces_all_digits (s : string) :
  forall seen acc,
    all_digits s = true ->
    digits_then_spaces s seen acc = digits_prefix digit_of 10 s seen acc.
Proof.
  induction s as [| c s IH]; intros seen acc Hs; [reflexivity |].
  rewrite all_digits_String in Hs. simpl.
  destruct (digit_of c) as [d |]; [apply IH; exact Hs | discriminate].
Qed.

Lemma skip_spaces_plain (c : ascii) (s : string) :
  is_space c = false -> skip_spaces (String c s) = String c s.
Proof. intros H. simpl. rewrite H. reflexivity. Qed.

(** The storage layer reads the decimal text of a 32-bit integer as that
    integer: every id of the column's range can be asked for. *)
Lemma int4in_int_out (z : Z) : in_int4 z = true -> int4in (int_out z) = inl z.
Proof.
  intros Hz. unfold int4in, int_out.
  destruct (Z.ltb_spec z 0) as [Hneg | Hpos].
  - rewrite skip_spaces_plain by reflexivity.
    change (split_sign (String "-" ?r)) with (-1, r).
    cbv beta iota.
    rewrite digits_then_spaces_all_digits
      by (apply all_digits_digits_fuel; reflexivity).
    rewrite digits_prefix_decimal by lia.
    replace (-1 * - z) with z by lia.
    rewrite Hz. reflexivity.
  - pose proof (all_digits_digits_fuel (S (Z.to_nat (Z.log2 z))) z ""
                  eq_refl) as Hall.
    pose proof (digits_fuel_nonempty (Z.to_nat (Z.log2 z)) z "") as Hne.
    destruct (digits_fuel (S (Z.to_nat (Z.log2 z))) z "") as [| c s] eqn:E;
      [congruence |].
    pose proof Hall as Hall'. rewrite all_digits_String in Hall'.
    destruct (digit_of c) as [d |] eqn:Ec; [| discriminate].
    destruct (digit_plain c d Ec) as (Hsp & Hm & Hp & _).
    rewrite skip_spaces_plain, split_sign_plain by assumption.
    cbv beta iota.
    rewrite digits_then_spaces_all_digits by exact Hall.
    rewrite <- E, digits_prefix_decimal by exact Hpos.
    rewrite Z.mul_1_l, Hz. reflexivity.
Qed.

(** ** Ordering *)

Section OrderByFacts.
Context {A : Type} (key : A -> Z).

Lemma insert_desc_perm (x : A) (l : list A) :
  Permutation (insert_desc key x l) (x :: l).
Proof.
  induction l as [| y l IH]; simpl; [reflexivity |].
  destruct (key y <=? key x); [reflexivity |].
  rewrite IH. apply perm_swap.
Qed.

Lemma order_by_desc_perm (l : list A) : Permutation (order_by_desc key l) l.
Proof.
  induction l as [| x l IH]; simpl; [reflexivity |].
  rewrite insert_desc_perm. apply perm_skip, IH.
Qed.

Lemma order_by_desc_In (l : list A) (x : A) :
  In x (order_by_desc key l) <-> In x l.
Proof.
  split; apply Permutation_in;
    [| symmetry]; apply order_by_desc_perm.
Qed.

Lemma insert_desc_sorted (x : A) (l : list A) :
  sorted_desc key l -> sorted_desc key (insert_desc key x l).
Proof.
  unfold sorted_desc.
  induction l as [| y l IH]; intros Hl; simpl.
  - constructor; constructor.
  - inversion Hl as [| ? ? Hs Hall]; subst.
    destruct (Z.leb_spec (key y) (key x)) as [Hle | Hgt].
    + constructor; [exact Hl |].
      constructor; [exact Hle |].
      eapply Forall_impl; [| exact Hall].
      simpl; intros; lia.
    + constructor; [apply IH, Hs |].
      eapply Permutation_Forall;
        [symmetry; apply insert_desc_perm |].
      constructor; [lia | exact Hall].
Qed.

Lemma order_by_desc_sorted (l : list A) :
  sorted_desc key (order_by_desc key l).
Proof.
  induction l as [| x l IH]; simpl.
  - constructor.
  - apply insert_desc_sorted, IH.
Qed.
End OrderByFacts.

Lemma sorted_desc_map {A B} (keyA : A -> Z) (keyB : B -> Z) (f : A -> B)
    (l : list A) :
  (forall x, keyB (f x) = keyA x) ->
  sorted_desc keyA l -> sorted_desc keyB (map f l).
Proof.
  intros Hk. unfold sorted_desc.
  induction 1 as [| x l Hs IH Hall]; simpl; constructor.
  - exact IH.
  - rewrite Forall_map, Hk.
    eapply Forall_impl; [| exact Hall].
    intros y Hy. rewrite Hk. exact Hy.
Qed.

(** ** Grouping the join *)

Lemma add_to_groups_fresh (row : JoinRow) (gs : list Group) :
  Forall (fun g => group_key g <> row_key row) gs ->
  add_to_groups row gs = gs ++ [ {| g_review := fst row; g_rows := [row] |} ].
Proof.
  induction 1 as [| g gs Hg _ IH]; simpl; [reflexivity |].
  destruct (Z.eqb_spec (Review.review_id (g_review g))
              (Review.review_id (fst row))) as [E | _].
  - elim Hg. exact E.
  - rewrite IH. reflexivity.
Qed.

Lemma add_to_groups_last (row : JoinRow) (gs : list Group) (g : Group) :
  Forall (fun g' => group_key g' <> row_key row) gs ->
  group_key g = row_key row ->
  add_to_groups row (gs ++ [g])
  = gs ++ [ {| g_review := g_review g; g_rows := g_rows g ++ [row] |} ].
Proof.
  intros Hgs Hg.
  induction Hgs as [| g' gs Hg' _ IH]; simpl.
  - destruct (Z.eqb_spec (Review.review_id (g_review g))
                (Review.review_id (fst row))) as [_ | N];
      [reflexivity | elim N; exact Hg].
  - destruct (Z.eqb_spec (Review.review_id (g_review g'))
                (Review.review_id (fst row))) as [E | _].
    + elim Hg'. exact E.
    + rewrite IH. reflexivity.
Qed.

(** Rows of one key, arriving after a group of that key was opened last,
    all land in that group. *)
Lemma fold_add_same_key (rows : list JoinRow) :
  forall (gs : list Group) (g : Group),
    Forall (fun row => row_key row = group_key g) rows ->
    Forall (fun g' => group_key g' <> group_key g) gs ->
    fold_left (fun gs row => add_to_groups row gs) rows (gs ++ [g])
    = gs ++ [ {| g_review := g_review g; g_rows := g_rows g ++ rows |} ].
Proof.
  induction rows as [| row rows IH]; intros gs g Hrows Hgs; simpl.
  - rewrite app_nil_r. destruct g; reflexivity.
  - inversion Hrows as [| ? ? Hrow Hrest]; subst.
    rewrite add_to_groups_last.
    + rewrite IH; simpl.
      * rewrite <- app_assoc. reflexivity.
      * exact Hrest.
      * exact Hgs.
    + eapply Forall_impl; [| exact Hgs].
      simpl; intros g' Hg'. rewrite Hrow. exact Hg'.
    + symmetry. exact Hrow.
Qed.

Lemma join_rows_key (cs : list Comment.t) (r : Review.t) :
  Forall (fun row => fst row = r) (join_rows cs r).
Proof.
  unfold join_rows.
  destruct (filter (on_review r) cs) as [| c ms].
  - constructor; [reflexivity | constructor].
  - apply Forall_map, Forall_forall. reflexivity.
Qed.

Lemma join_rows_nonempty (cs : list Comment.t) (r : Review.t) :
  join_rows cs r <> [].
Proof.
  unfold join_rows.
  destruct (filter (on_review r) cs); discriminate.
Qed.

(** A review whose id opens no earlier group gets a group of its own,
    holding exactly its rows. *)
Lemma fold_add_join_rows (cs : list Comment.t) (r : Review.t)
    (gs : list Group) :
  Forall (fun g => group_key g <> Review.review_id r) gs ->
  fold_left (fun gs row => add_to_groups row gs) (join_rows cs r) gs
  = gs ++ [ {| g_review := r; g_rows := join_rows cs r |} ].
Proof.
  intros Hgs.
  pose proof (join_rows_key cs r) as Hk.
  pose proof (join_rows_nonempty cs r) as Hne.
  destruct (join_rows cs r) as [| row rows]; [congruence |].
  inversion Hk as [| ? ? Hrow Hrest]; subst.
  simpl. rewrite add_to_groups_fresh by exact Hgs.
  rewrite fold_add_same_key; [reflexivity | | exact Hgs].
  eapply Forall_impl; [| exact Hrest].
  intros row' E. unfold row_key, group_key. simpl. rewrite E. reflexivity.
Qed.

(** With [review_id] a key, the groups are the reviews, in table order. *)
Lemma fold_add_left_join (cs : list Comment.t) (rs : list Review.t) :
  forall gs : list Group,
    NoDup (map Review.review_id rs) ->
    Forall (fun g => ~ In (group_key g) (map Review.review_id rs)) gs ->
    fold_left (fun gs row => add_to_groups row gs) (left_join rs cs) gs
    = gs ++ map (fun r => {| g_review := r; g_rows := join_rows cs r |}) rs.
Proof.
  unfold left_join.
  induction rs as [| r rs IH]; intros gs Hnd Hgs; simpl.
  - rewrite app_nil_r. reflexivity.
  - inversion Hnd as [| ? ? Hr Hnd']; subst.
    rewrite fold_left_app, fold_add_join_rows.
    + rewrite IH.
      * rewrite <- app_assoc. reflexivity.
      * exact Hnd'.
      * apply Forall_app. split.
        -- eapply Forall_impl; [| exact Hgs].
           simpl; intros g Hg Hin. apply Hg. right. exact Hin.
        -- constructor; [exact Hr | constructor].
    + eapply Forall_impl; [| exact Hgs].
      simpl; intros g Hg E. apply Hg. left. symmetry. exact E.
Qed.

Lemma group_by_left_join (d : Db) :
  reviews_pkey d ->
  group_by_review_id (left_join (reviews d) (comments d))
  = map (fun r => {| g_review := r; g_rows := join_rows (comments d) r |})
      (reviews d).
Proof.
  intros Hpk. unfold group_by_review_id.
  rewrite fold_add_left_join; [reflexivity | exact Hpk | constructor].
Qed.

Lemma count_not_null (r : Review.t) (ms : list Comment.t) :
  List.length (filter not_null (map (fun c => (r, Some c)) ms))
  = List.length ms.
Proof.
  induction ms as [| c ms IH]; simpl; [reflexivity | f_equal; exact IH].
Qed.

Lemma count_join_rows (d : Db) (r : Review.t) :
  count_review_id {| g_review := r; g_rows := join_rows (comments d) r |}
  = comment_total d r.
Proof.
  unfold count_review_id, comment_total, join_rows, g_rows.
  rewrite (filter_ext (fun cm => Comment.review_id cm =? Review.review_id r)
             (on_review r))
    by (intros cm; apply Z.eqb_sym).
  destruct (filter (on_review r) (comments d)) as [| c ms];
    [reflexivity |].
  rewrite count_not_null. reflexivity.
Qed.

(** Without the key, every group still carries a stored review. *)
Lemma add_to_groups_review (rs : list Review.t) (row : JoinRow)
    (gs : list Group) :
  In (fst row) rs ->
  Forall (fun g => In (g_review g) rs) gs ->
  Forall (fun g => In (g_review g) rs) (add_to_groups row gs).
Proof.
  intros Hrow.
  induction 1 as [| g gs Hg Hgs IH]; simpl.
  - constructor; [exact Hrow | constructor].
  - destruct (Review.review_id (g_review g) =? Review.review_id (fst row));
      constructor; assumption.
Qed.

Lemma left_join_review (rs : list Review.t) (cs : list Comment.t) :
  Forall (fun row => In (fst row) rs) (left_join rs cs).
Proof.
  apply Forall_forall. intros row Hin.
  apply in_flat_map in Hin. destruct Hin as (r & Hr & Hrow).
  pose proof (join_rows_key cs r) as Hk.
  rewrite Forall_forall in Hk. rewrite (Hk row Hrow). exact Hr.
Qed.

Lemma group_by_review (rs : list Review.t) (rows : list JoinRow) :
  Forall (fun row => In (fst row) rs) rows ->
  Forall (fun g => In (g_review g) rs) (group_by_review_id rows).
Proof.
  unfold group_by_review_id.
  assert (G : forall gs,
             Forall (fun row => In (fst row) rs) rows ->
             Forall (fun g => In (g_review g) rs) gs ->
             Forall (fun g => In (g_review g) rs)
               (fold_left (fun gs row => add_to_groups row gs) rows gs)).
  { induction rows as [| row rows IH]; intros gs Hrows Hgs; simpl;
      [exact Hgs |].
    inversion Hrows; subst.
    apply IH; [assumption |].
    apply add_to_groups_review; assumption. }
  intros Hrows. apply G; [exact Hrows | constructor].
Qed.

(** ** The listing of reviews *)

Lemma reviews_counted_pkey (d : Db) :
  reviews_pkey d ->
  reviews_counted d
  = order_by_desc row_created_at
      (map (fun r => {| row_review := r;
                        comment_count := int_out (comment_total d r) |})
         (reviews d)).
Proof.
  intros Hpk. unfold reviews_counted.
  rewrite (group_by_left_join d Hpk), map_map.
  f_equal. apply map_ext. intros r.
  rewrite count_join_rows. reflexivity.
Qed.

Lemma comment_total_nonneg (d : Db) (r : Review.t) : 0 <= comment_total d r.
Proof. unfold comment_total. lia. Qed.

Lemma selectReviews_run (c : Conn) :
  selectReviews c
  = (Resolved
       (map (fun review =>
               {| row_review := row_review review;
                  comment_count := parseInt (comment_count review) |})
          (reviews_counted (db c))),
     send SelectReviewsCounted c).
Proof. reflexivity. Qed.

(** ** Looking a review up *)

Lemma query_review_by_id_run (p1 : string) (c : Conn) :
  query_review_by_id p1 c
  = (match int4in p1 with
     | inl id =>
         Resolved (filter (fun r => Review.review_id r =? id) (reviews (db c)))
     | inr code => Rejected (PgError code)
     end,
     send (SelectReviewById p1) c).
Proof.
  unfold query_review_by_id. destruct (int4in p1); reflexivity.
Qed.

Lemma filter_id_nil (rs : list Review.t) (id : Z) :
  filter (fun r => Review.review_id r =? id) rs = []
  <-> ~ exists r, In r rs /\ Review.review_id r = id.
Proof.
  split.
  - intros E (r & Hin & Hid).
    assert (H : In r (filter (fun r => Review.review_id r =? id) rs)).
    { apply filter_In. split; [exact Hin | apply Z.eqb_eq, Hid]. }
    rewrite E in H. exact H.
  - intros N.
    destruct (filter (fun r => Review.review_id r =? id) rs) as [| r l] eqn:E;
      [reflexivity |].
    exfalso. apply N. exists r.
    assert (H : In r (filter (fun r => Review.review_id r =? id) rs))
      by (rewrite E; left; reflexivity).
    apply filter_In in H. destruct H as [Hin Hid].
    split; [exact Hin | apply Z.eqb_eq, Hid].
Qed.

Lemma filter_id_head (rs : list Review.t) (id : Z) (r : Review.t)
    (l : list Review.t) :
  filter (fun r => Review.review_id r =? id) rs = r :: l ->
  In r rs /\ Review.review_id r = id.
Proof.
  intros E.
  assert (H : In r (filter (fun r => Review.review_id r =? id) rs))
    by (rewrite E; left; reflexivity).
  apply filter_In in H. destruct H as [Hin Hid].
  split; [exact Hin | apply Z.eqb_eq, Hid].
Qed.

(** With [review_id] a key, the statement returns the one row. *)
Lemma filter_id_pkey (rs : list Review.t) (r : Review.t) :
  NoDup (map Review.review_id rs) -> In r rs ->
  filter (fun r' => Review.review_id r' =? Review.review_id r) rs = [r].
Proof.
  induction rs as [| r' rs IH]; intros Hnd Hin; [contradiction |].
  inversion Hnd as [| ? ? Hnotin Hnd']; subst. simpl.
  destruct Hin as [-> | Hin].
  - rewrite Z.eqb_refl. f_equal.
    apply filter_id_nil. intros (r'' & Hin & Hid).
    apply Hnotin. rewrite <- Hid. apply in_map. exact Hin.
  - destruct (Z.eqb_spec (Review.review_id r') (Review.review_id r))
      as [E | _].
    + exfalso. apply Hnotin. rewrite E. apply in_map. exact Hin.
    + apply IH; assumption.
Qed.

Lemma selectReviewFromId_run (reviewId : string) (c : Conn) :
  selectReviewFromId reviewId c
  = (match int4in reviewId with
     | inl id =>
         match filter (fun r => Review.review_id r =? id) (reviews (db c)) with
         | [] => Rejected (no_review_found reviewId)
         | review :: _ => Resolved review
         end
     | inr code => Rejected (PgError code)
     end,
     send (SelectReviewById reviewId) c).
Proof.
  unfold selectReviewFromId, andThen.
  rewrite query_review_by_id_run.
  destruct (int4in reviewId) as [id | code]; [| reflexivity].
  destruct (filter _ _); reflexivity.
Qed.

Lemma query_comments_by_review_run (p1 : string) (c : Conn) :
  query_comments_by_review p1 c
  = (match int4in p1 with
     | inl id =>
         Resolved
           (order_by_desc Comment.created_at
              (filter (fun cm => Comment.review_id cm =? id)
                 (comments (db c))))
     | inr code => Rejected (PgError code)
     end,
     send (SelectCommentsByReview p1) c).
Proof.
  unfold query_comments_by_review. destruct (int4in p1); reflexivity.
Qed.

Lemma selectCommentsFromReview_run (reviewId : string) (c : Conn) :
  selectCommentsFromReview reviewId c
  = match int4in reviewId with
    | inl id =>
        match filter (fun r => Review.review_id r =? id) (reviews (db c)) with
        | [] =>
            (Rejected (no_review_found reviewId),
             send (SelectReviewById reviewId) c)
        | _ :: _ =>
            (Resolved
               (order_by_desc Comment.created_at
                  (filter (fun cm => Comment.review_id cm =? id)
                     (comments (db c)))),
             send (SelectCommentsByReview reviewId)
               (send (SelectReviewById reviewId) c))
        end
    | inr code =>
        (Rejected (PgError code), send (SelectReviewById reviewId) c)
    end.
Proof.
  unfold selectCommentsFromReview, andThen.
  rewrite query_review_by_id_run.
  destruct (int4in reviewId) as [id | code] eqn:Eid; [| reflexivity].
  destruct (filter _ _) as [| r l]; [reflexivity |].
  change (List.length (r :: l) =? 0)%nat with false.
  cbv beta iota.
  rewrite query_comments_by_review_run, Eid. reflexivity.
Qed.

Lemma filter_none {A} (f : A -> bool) (l : list A) :
  (forall x, In x l -> f x = false) -> filter f l = [].
Proof.
  induction l as [| x l IH]; intros H; simpl; [reflexivity |].
  rewrite (H x) by (left; reflexivity).
  apply IH. intros y Hy. apply H. right. exact Hy.
Qed.

(** ** The vote update *)

Lemma query_update_votes_run (p1 p2 : string) (c : Conn) :
  query_update_votes p1 p2 c
  = match int4in p1, int4in p2 with
    | inl inc, inl id =>
        let hit := fun cm => Comment.review_id cm =? id in
        let cs' :=
          map (fun cm =>
                 if hit cm
                 then Comment.set_votes (Comment.votes cm + inc) cm
                 else cm)
              (comments (db c)) in
        if forallb (fun cm => in_int4 (Comment.votes cm)) (filter hit cs')
        then (Resolved (filter hit cs'),
              with_comments cs' (send (UpdateCommentVotes p1 p2) c))
        else (Rejected (PgError "22003"), send (UpdateCommentVotes p1 p2) c)
    | inr code, _ =>
        (Rejected (PgError code), send (UpdateCommentVotes p1 p2) c)
    | _, inr code =>
        (Rejected (PgError code), send (UpdateCommentVotes p1 p2) c)
    end.
Proof. reflexivity. Qed.

Lemma query_update_votes_pg (p1 p2 : string) (c : Conn) :
  (exists rows, fst (query_update_votes p1 p2 c) = Resolved rows)
  \/ (exists code, fst (query_update_votes p1 p2 c) = Rejected (PgError code)).
Proof.
  rewrite query_update_votes_run.
  destruct (int4in p1) as [inc | code1], (int4in p2) as [id | code2];
    cbv zeta; try (right; eexists; reflexivity).
  destruct (forallb _ _); [left | right]; eexists; reflexivity.
Qed.

Lemma patchComment_run (review_id inc_votes : string) (c : Conn) :
  patchComment review_id inc_votes c
  = match query_update_votes review_id inc_votes c with
    | (Resolved rows, c') => (Resolved (nth_error rows 0), c')
    | (Rejected e, c') => (Rejected e, c')
    end.
Proof. reflexivity. Qed.

Lemma map_untouched {A} (hit : A -> bool) (g : A -> A) (l : list A) :
  (forall x, In x l -> hit x = false) ->
  map (fun x => if hit x then g x else x) l = l.
Proof.
  induction l as [| x l IH]; intros H; simpl; [reflexivity |].
  rewrite (H x) by (left; reflexivity). f_equal.
  apply IH. intros y Hy. apply H. right. exact Hy.
Qed.

(** ** Reads *)

Lemma reads_only_again {A} (p : Promise A) :
  reads_only p ->
  forall n c,
    db (again n p c) = db c /\ fst (p (again n p c)) = fst (p c).
Proof.
  intros Hp n c.
  assert (Hdb : db (again n p c) = db c).
  { induction n as [| n IH]; simpl; [reflexivity |].
    rewrite (proj1 (Hp _)). exact IH. }
  split; [exact Hdb |].
  apply (proj2 (Hp c)). exact Hdb.
Qed.

Lemma selectReviews_reads_only : reads_only selectReviews.
Proof.
  intros c. rewrite selectReviews_run. split; [reflexivity |].
  intros c' E. rewrite selectReviews_run. simpl. rewrite E. reflexivity.
Qed.

Lemma selectReviewFromId_reads_only (reviewId : string) :
  reads_only (selectReviewFromId reviewId).
Proof.
  intros c. rewrite selectReviewFromId_run. split; [reflexivity |].
  intros c' E. rewrite selectReviewFromId_run. simpl. rewrite E. reflexivity.
Qed.

Lemma selectCommentsFromReview_reads_only (reviewId : string) :
  reads_only (selectCommentsFromReview reviewId).
Proof.
  intros c. split.
  - rewrite selectCommentsFromReview_run.
    destruct (int4in reviewId); [| reflexivity].
    destruct (filter _ _); reflexivity.
  - intros c' E. rewrite !selectCommentsFromReview_run, E.
    destruct (int4in reviewId); [| reflexivity].
    destruct (filter _ _); reflexivity.
Qed.

Lemma selectCategories_reads_only : reads_only selectCategories.
Proof.
  intros c. split; [reflexivity |].
  intros c' E. unfold selectCategories. simpl. rewrite E. reflexivity.
Qed.

Lemma selectUsers_reads_only : reads_only selectUsers.
Proof.
  intros c. split; [reflexivity |].
  intros c' E. unfold selectUsers. simpl. rewrite E. reflexivity.
Qed.

Create HintDb reads discriminated.
#[local] Hint Resolve selectReviews_reads_only selectReviewFromId_reads_only
  selectCommentsFromReview_reads_only selectCategories_reads_only
  selectUsers_reads_only : reads.

(** No row of a fixture table satisfies a condition that its rows'
    columns contradict. *)
Ltac no_fixture_row H :=
  repeat (destruct H as [<- | H]; [discriminate |]); contradiction.

(** * The claims *)

(** C1 (defect).  The vote update is meant to add [inc_votes] to the
    comments of review [review_id], but [patchComment] hands the driver the
    array [[review_id, inc_votes]] for a statement whose [$1] is the amount
    added and whose [$2] is the review looked for.  On the fixture,
    [patchComment "2" "3"] leaves the comments of review 2 at 16, 16 and 13
    votes, adds 2 to every comment of review 3 and returns the first of
    those. *)
Theorem patchComment_swaps_parameters :
  fst (patchComment "2" "3" conn0) = Resolved (Some (com 2 3 15 50))
  /\ map Comment.votes
       (filter (fun cm => Comment.review_id cm =? 2)
          (comments (db (snd (patchComment "2" "3" conn0)))))
     = [16; 16; 13]
  /\ map Comment.votes
       (filter (fun cm => Comment.review_id cm =? 3)
          (comments (db (snd (patchComment "2" "3" conn0)))))
     = [15; 12; 12]
  /\ map Comment.votes
       (filter (fun cm => Comment.review_id cm =? 3) (comments (db conn0)))
     = [13; 10; 10].
Proof. vm_compute. repeat split. Qed.

(** C2.  With [review_id] the primary key of [reviews], [selectReviews]
    resolves to the reviews of the table, each exactly once (in some
    order) and each with [comment_count] the integer number of comment
    rows whose [review_id] is the review's; a review without comments is
    in the result with [comment_count] 0. *)
Theorem selectReviews_comment_count (c : Conn) :
  reviews_pkey (db c) ->
  exists rows,
    fst (selectReviews c) = Resolved rows
    /\ Permutation rows
         (map (fun r => {| row_review := r;
                           comment_count := Num (comment_total (db c) r) |})
            (reviews (db c)))
    /\ (forall r,
          In r (reviews (db c)) ->
          (forall cm, In cm (comments (db c)) ->
                      Comment.review_id cm <> Review.review_id r) ->
          In {| row_review := r; comment_count := Num 0 |} rows).
Proof.
  intros Hpk. rewrite selectReviews_run, (reviews_counted_pkey _ Hpk).
  eexists. split; [reflexivity |].
  assert (P : Permutation
                (map (fun review =>
                        {| row_review := row_review review;
                           comment_count := parseInt (comment_count review) |})
                   (order_by_desc row_created_at
                      (map (fun r =>
                              {| row_review := r;
                                 comment_count :=
                                   int_out (comment_total (db c) r) |})
                         (reviews (db c)))))
                (map (fun r =>
                        {| row_review := r;
                           comment_count := Num (comment_total (db c) r) |})
                   (reviews (db c)))).
  { rewrite order_by_desc_perm, map_map.
    erewrite map_ext; [reflexivity |].
    intros r. simpl.
    rewrite parseInt_int_out by apply comment_total_nonneg. reflexivity. }
  split; [exact P |].
  intros r Hin Hnone.
  eapply Permutation_in; [symmetry; exact P |].
  apply in_map_iff. exists r. split; [| exact Hin].
  f_equal. f_equal. unfold comment_total.
  rewrite filter_none; [reflexivity |].
  intros cm Hcm. apply Z.eqb_neq, Hnone, Hcm.
Qed.

Lemma fixture_pkey : reviews_pkey (db conn0).
Proof.
  unfold reviews_pkey. simpl.
  repeat (constructor; [simpl; intuition discriminate |]).
  constructor.
Defined.

Lemma selectReviews_comment_count_witness :
  exists rows,
    fst (selectReviews conn0) = Resolved rows
    /\ In {| row_review := rev 1 "Agricola" 100; comment_count := Num 0 |}
         rows.
Proof.
  destruct (selectReviews_comment_count conn0 fixture_pkey)
    as (rows & E & _ & Hzero).
  exists rows. split; [exact E |].
  apply Hzero.
  - left. reflexivity.
  - simpl. intros cm H.
    no_fixture_row H.
Defined.

(** C3.  [selectReviews] resolves to a sequence whose [created_at] never
    increases from one row to any later one, and so does
    [selectCommentsFromReview] for every parameter that the storage layer
    reads as the id of a review of the table; the decimal text of the id
    of any review is such a parameter. *)
Theorem listings_sorted_by_created_at_desc (c : Conn) :
  (exists rows,
      fst (selectReviews c) = Resolved rows
      /\ sorted_desc row_created_at rows)
  /\ (forall reviewId id,
        int4in reviewId = inl id ->
        review_exists (db c) id ->
        exists rows,
          fst (selectCommentsFromReview reviewId c) = Resolved rows
          /\ sorted_desc Comment.created_at rows)
  /\ (forall r,
        In r (reviews (db c)) ->
        in_int4 (Review.review_id r) = true ->
        exists rows,
          fst (selectCommentsFromReview (int_out (Review.review_id r)) c)
            = Resolved rows
          /\ sorted_desc Comment.created_at rows).
Proof.
  assert (Hany : forall reviewId id,
             int4in reviewId = inl id ->
             review_exists (db c) id ->
             exists rows,
               fst (selectCommentsFromReview reviewId c) = Resolved rows
               /\ sorted_desc Comment.created_at rows).
  { intros reviewId id Hid Hex.
    rewrite selectCommentsFromReview_run, Hid.
    destruct (filter _ _) as [| r l] eqn:E.
    - apply filter_id_nil in E. contradiction.
    - eexists. split; [reflexivity |]. apply order_by_desc_sorted. }
  split; [| split; [exact Hany |]].
  - rewrite selectReviews_run. eexists. split; [reflexivity |].
    apply (sorted_desc_map row_created_at); [reflexivity |].
    apply order_by_desc_sorted.
  - intros r Hin Hrange.
    apply (Hany _ (Review.review_id r)).
    + apply int4in_int_out, Hrange.
    + exists r. split; [exact Hin | reflexivity].
Qed.

Lemma fixture_review_3 : review_exists (db conn0) 3.
Proof.
  exists (rev 3 "Ultimate" 200). split; [| reflexivity].
  right. right. left. reflexivity.
Defined.

Lemma listings_sorted_by_created_at_desc_witness :
  exists rows,
    fst (selectCommentsFromReview "3" conn0) = Resolved rows
    /\ sorted_desc Comment.created_at rows.
Proof.
  apply (proj1 (proj2 (listings_sorted_by_created_at_desc conn0)) "3" 3).
  - reflexivity.
  - exact fixture_review_3.
Defined.

(** C4 as stated fails: the text [notAnId] matches no review row, yet
    [selectCommentsFromReview] is rejected with the storage layer's error
    for a malformed integer, not with the 404 object. *)
Lemma selectCommentsFromReview_malformed_id :
  fst (selectCommentsFromReview "notAnId" conn0) = Rejected (PgError "22P02")
  /\ ~ (fst (selectCommentsFromReview "notAnId" conn0)
          = Rejected (no_review_found "notAnId")
        <-> ~ exists r, In r (reviews (db conn0)) /\ row_matches "notAnId" r).
Proof.
  split; [reflexivity |].
  intros [_ H].
  assert (E : fst (selectCommentsFromReview "notAnId" conn0)
              = Rejected (no_review_found "notAnId")).
  { apply H. intros (r & _ & Hm). discriminate Hm. }
  discriminate E.
Qed.

(** C4 (amended).  For a [reviewId] that the storage layer reads as the
    integer [id], [selectCommentsFromReview] is rejected with status 404
    and the message "No review found for review <reviewId>" exactly when
    no review has that id; when a review has it, the outcome is the
    comments of the review, newest first, which is the empty sequence when
    the review has no comments; the statement on [reviews] is sent first,
    and the statement on [comments] is sent after it only when the review
    was found. *)
Theorem selectCommentsFromReview_checks_review_first
    (c : Conn) (reviewId : string) (id : Z) :
  int4in reviewId = inl id ->
  (fst (selectCommentsFromReview reviewId c)
     = Rejected
         (HttpError 404 ("No review found for review " ++ reviewId)%string)
   <-> ~ review_exists (db c) id)
  /\ (review_exists (db c) id ->
      fst (selectCommentsFromReview reviewId c)
        = Resolved
            (order_by_desc Comment.created_at
               (filter (fun cm => Comment.review_id cm =? id)
                  (comments (db c))))
      /\ sent (snd (selectCommentsFromReview reviewId c))
         = sent c ++ [SelectReviewById reviewId;
                      SelectCommentsByReview reviewId])
  /\ (review_exists (db c) id ->
      (forall cm, In cm (comments (db c)) -> Comment.review_id cm <> id) ->
      fst (selectCommentsFromReview reviewId c) = Resolved [])
  /\ (~ review_exists (db c) id ->
      sent (snd (selectCommentsFromReview reviewId c))
      = sent c ++ [SelectReviewById reviewId]).
Proof.
  intros Hid.
  rewrite selectCommentsFromReview_run, Hid.
  pose proof (filter_id_nil (reviews (db c)) id) as Hnil.
  fold (review_exists (db c) id) in Hnil.
  destruct (filter (fun r => Review.review_id r =? id) (reviews (db c)))
    as [| r l].
  - assert (Hno : ~ review_exists (db c) id) by (apply Hnil; reflexivity).
    repeat split; try contradiction; try reflexivity.
    intros _. exact Hno.
  - assert (Hyes : ~ ~ review_exists (db c) id).
    { intros N. apply Hnil in N. discriminate N. }
    repeat split; try reflexivity; try contradiction; try discriminate.
    + simpl. rewrite <- app_assoc. reflexivity.
    + intros _ Hnone. simpl. rewrite filter_none; [reflexivity |].
      intros cm Hcm. apply Z.eqb_neq, Hnone, Hcm.
Qed.

Lemma fixture_review_1 : review_exists (db conn0) 1.
Proof.
  exists (rev 1 "Agricola" 100). split; [left |]; reflexivity.
Defined.

Lemma selectCommentsFromReview_checks_review_first_witness :
  fst (selectCommentsFromReview "1" conn0) = Resolved [].
Proof.
  apply (selectCommentsFromReview_checks_review_first conn0 "1" 1).
  - reflexivity.
  - exact fixture_review_1.
  - simpl. intros cm H.
    no_fixture_row H.
Defined.

(** C5 as stated fails: the text [notAnId] matches no review row, yet
    [selectReviewFromId] is rejected with the storage layer's error for a
    malformed integer, not with the 404 object. *)
Lemma selectReviewFromId_malformed_id :
  fst (selectReviewFromId "notAnId" conn0) = Rejected (PgError "22P02")
  /\ ~ (fst (selectReviewFromId "notAnId" conn0)
          = Rejected
              (HttpError 404 "No review found for review notAnId")
        <-> ~ exists r, In r (reviews (db conn0)) /\ row_matches "notAnId" r).
Proof.
  split; [reflexivity |].
  intros [_ H].
  assert (E : fst (selectReviewFromId "notAnId" conn0)
              = Rejected
                  (HttpError 404 "No review found for review notAnId")).
  { apply H. intros (r & _ & Hm). discriminate Hm. }
  discriminate E.
Qed.

(** C5 (amended).  For a [reviewId] that the storage layer reads as the
    integer [id], [selectReviewFromId] resolves to a stored review with
    that id when there is one (to the review itself, [review_id] being the
    primary key), and is rejected with status 404 and the message
    "No review found for review <reviewId>" exactly when there is none. *)
Theorem selectReviewFromId_found_or_404
    (c : Conn) (reviewId : string) (id : Z) :
  int4in reviewId = inl id ->
  (review_exists (db c) id ->
   exists r,
     In r (reviews (db c)) /\ Review.review_id r = id
     /\ fst (selectReviewFromId reviewId c) = Resolved r)
  /\ (forall r,
        reviews_pkey (db c) -> In r (reviews (db c)) ->
        Review.review_id r = id ->
        fst (selectReviewFromId reviewId c) = Resolved r)
  /\ (fst (selectReviewFromId reviewId c)
        = Rejected
            (HttpError 404 ("No review found for review " ++ reviewId)%string)
      <-> ~ review_exists (db c) id).
Proof.
  intros Hid.
  rewrite selectReviewFromId_run, Hid.
  split; [| split].
  - intros Hex.
    destruct (filter (fun r => Review.review_id r =? id) (reviews (db c)))
      as [| r l] eqn:E.
    + apply filter_id_nil in E. contradiction.
    + apply filter_id_head in E. destruct E as [Hin Hr].
      exists r. repeat split; assumption.
  - intros r Hpk Hin Hr. subst id.
    rewrite (filter_id_pkey _ r Hpk Hin). reflexivity.
  - pose proof (filter_id_nil (reviews (db c)) id) as Hnil.
    fold (review_exists (db c) id) in Hnil.
    destruct (filter (fun r => Review.review_id r =? id) (reviews (db c)))
      as [| r l].
    + split; [intros _; apply Hnil |]; reflexivity.
    + split; [discriminate |].
      intros N. apply Hnil in N. discriminate N.
Qed.

Lemma selectReviewFromId_found_or_404_witness :
  fst (selectReviewFromId "3" conn0) = Resolved (rev 3 "Ultimate" 200)
  /\ fst (selectReviewFromId "100" conn0)
     = Rejected (HttpError 404 "No review found for review 100").
Proof.
  split.
  - apply (proj1 (proj2
             (selectReviewFromId_found_or_404 conn0 "3" 3 eq_refl))).
    + exact fixture_pkey.
    + right. right. left. reflexivity.
    + reflexivity.
  - apply (proj2 (proj2
             (selectReviewFromId_found_or_404 conn0 "100" 100 eq_refl))).
    intros (r & Hin & Hr). simpl in Hin.
    repeat (destruct Hin as [<- | Hin]; [discriminate Hr |]).
    contradiction.
Defined.

(** C6.  When [username] or [body] is absent from the request body or is
    the empty string, comment creation is rejected with status 400 and the
    message "Bad request - incomplete information", and the connection is
    as before: no statement was sent and no table changed. *)
Theorem postComment_incomplete
    (c : Conn) (review_id : string) (payload : Body) :
  field "username" payload = None
  \/ field "username" payload = Some (JString "")
  \/ field "body" payload = None
  \/ field "body" payload = Some (JString "") ->
  postComment review_id payload c
  = (Rejected (HttpError 400 "Bad request - incomplete information"), c).
Proof.
  unfold postComment, insertComment.
  intros [E | [E | [E | E]]]; rewrite E; simpl;
    try reflexivity;
    destruct (required (field "username" payload)); reflexivity.
Qed.

Lemma postComment_incomplete_witness :
  postComment "4" [("username", JString "mallionaire")] conn0
  = (Rejected (HttpError 400 "Bad request - incomplete information"), conn0).
Proof.
  apply postComment_incomplete.
  right. right. left. reflexivity.
Defined.

Lemma query_insert_comment_votes (a r b : string) (c c' : Conn)
    (cm : Comment.t) :
  query_insert_comment a r b c = (Resolved cm, c') ->
  Comment.votes cm = 0 /\ comments (db c') = comments (db c) ++ [cm].
Proof.
  unfold query_insert_comment.
  destruct (int4in r) as [id | code]; [| discriminate].
  destruct (_ && _); [| discriminate].
  intros E. injection E as <- <-. split; reflexivity.
Qed.

(** C7.  A comment creation that succeeds stores, as the last row of
    [comments], the comment it returns, with [votes] 0; and a request body
    that differs only in fields other than [username] and [body], such as
    a [votes] of its own, has the same outcome. *)
Theorem postComment_votes_zero
    (c c' : Conn) (review_id : string) (payload : Body) (cm : Comment.t) :
  postComment review_id payload c = (Resolved cm, c') ->
  Comment.votes cm = 0
  /\ comments (db c') = comments (db c) ++ [cm]
  /\ (forall payload' : Body,
        field "username" payload' = field "username" payload ->
        field "body" payload' = field "body" payload ->
        postComment review_id payload' c = (Resolved cm, c')).
Proof.
  intros H.
  assert (Hstored : Comment.votes cm = 0
                    /\ comments (db c') = comments (db c) ++ [cm]).
  { unfold postComment, insertComment in H.
    destruct (required (field "username" payload)) as [author |];
      [| discriminate].
    destruct (required (field "body" payload)) as [text |];
      [| discriminate].
    destruct (query_insert_comment author review_id text c)
      as [[cm' | e] c''] eqn:E; [| discriminate].
    injection H as -> ->.
    eapply query_insert_comment_votes. exact E. }
  destruct Hstored as [Hv Hc].
  repeat split; [exact Hv | exact Hc |].
  intros payload' Eu Eb. unfold postComment. rewrite Eu, Eb. exact H.
Qed.

Lemma postComment_votes_zero_witness :
  exists cm c',
    postComment "3"
      [("username", JString "mallionaire"); ("body", JString "Great game!");
       ("votes", JNumber 50)]
      conn0
    = (Resolved cm, c')
    /\ Comment.votes cm = 0.
Proof.
  exists (Comment.mk 7 "mallionaire" 3 "Great game!" 0 1000).
  exists (snd (postComment "3"
                 [("username", JString "mallionaire");
                  ("body", JString "Great game!")]
                 conn0)).
  destruct (postComment_votes_zero conn0 _ "3"
              [("username", JString "mallionaire");
               ("body", JString "Great game!")]
              _ eq_refl)
    as (Hv & _ & Hsame).
  split; [apply Hsame; reflexivity | exact Hv].
Defined.

(** C8.  The reads leave the tables as they were, and run again, any
    number of times in a row, they have the outcome of the first run:
    [selectReviews], [selectReviewFromId], [selectCommentsFromReview] and
    the two plain listings. *)
Theorem reads_are_repeatable :
  repeatable selectReviews
  /\ (forall reviewId, repeatable (selectReviewFromId reviewId))
  /\ (forall reviewId, repeatable (selectCommentsFromReview reviewId))
  /\ repeatable selectCategories
  /\ repeatable selectUsers.
Proof.
  unfold repeatable.
  repeat split; intros; apply reads_only_again; auto with reads.
Qed.

(** C9.  [patchComment] is never rejected with an object carrying a
    status, 404 or other: a rejection is the storage layer's error.  When
    the UPDATE returns no row, the promise resolves to [undefined]; that
    is the case whenever the UPDATE is executed, both parameters being
    accepted, and no comment has the [review_id] it looks for (its [$2],
    the second element of the parameter array), and the tables are then
    as before. *)
Theorem patchComment_never_not_found
    (c : Conn) (review_id inc_votes : string) :
  (forall status msg,
      fst (patchComment review_id inc_votes c)
      <> Rejected (HttpError status msg))
  /\ (fst (query_update_votes review_id inc_votes c) = Resolved [] ->
      fst (patchComment review_id inc_votes c) = Resolved None)
  /\ (forall p1 p2,
        int4in review_id = inl p1 -> int4in inc_votes = inl p2 ->
        (forall cm, In cm (comments (db c)) -> Comment.review_id cm <> p2) ->
        fst (patchComment review_id inc_votes c) = Resolved None
        /\ db (snd (patchComment review_id inc_votes c)) = db c).
Proof.
  split.
  - intros status msg. rewrite patchComment_run.
    destruct (query_update_votes_pg review_id inc_votes c)
      as [(rows & E) | (code & E)];
      destruct (query_update_votes review_id inc_votes c) as [o c'];
      simpl in E; subst o; discriminate.
  - split.
    { rewrite patchComment_run.
      destruct (query_update_votes review_id inc_votes c) as [o c'].
      simpl. intros ->. reflexivity. }
    intros p1 p2 H1 H2 Hnone.
    rewrite patchComment_run, query_update_votes_run, H1, H2.
    cbv beta iota zeta.
    assert (Hmiss : forall cm, In cm (comments (db c)) ->
                               (Comment.review_id cm =? p2) = false).
    { intros cm Hcm. apply Z.eqb_neq, Hnone, Hcm. }
    rewrite (map_untouched (fun cm => Comment.review_id cm =? p2)
               (fun cm => Comment.set_votes (Comment.votes cm + p1) cm)
               _ Hmiss).
    rewrite (filter_none _ _ Hmiss). simpl.
    split; [reflexivity |].
    destruct c as [[cats us rs cs] t seq st]. reflexivity.
Qed.

Lemma patchComment_never_not_found_witness :
  fst (patchComment "2" "10" conn0) = Resolved None
  /\ db (snd (patchComment "2" "10" conn0)) = db conn0.
Proof.
  apply (proj2 (proj2 (patchComment_never_not_found conn0 "2" "10")) 2 10).
  - reflexivity.
  - reflexivity.
  - simpl. intros cm H.
    no_fixture_row H.
Defined.

(** C10.  Every row of [selectReviews] carries a review of the table with
    all its columns as stored, and a [comment_count] that is [parseInt] of
    the count the statement delivered for that review.  When the UPDATE
    of [patchComment] returns several rows, all of them are in the table
    with their new votes, and the promise resolves to the first alone. *)
Theorem selectReviews_frame_and_patch_first (c : Conn) :
  (forall rows row,
      fst (selectReviews c) = Resolved rows ->
      In row rows ->
      In (row_review row) (reviews (db c))
      /\ exists raw,
           In raw (reviews_counted (db c))
           /\ row_review row = row_review raw
           /\ comment_count row = parseInt (comment_count raw))
  /\ (forall review_id inc_votes first rest,
        fst (query_update_votes review_id inc_votes c)
          = Resolved (first :: rest) ->
        fst (patchComment review_id inc_votes c) = Resolved (Some first)
        /\ Forall
             (fun cm =>
                In cm (comments (db (snd (patchComment review_id inc_votes c)))))
             (first :: rest)).
Proof.
  split.
  - intros rows row E Hin.
    rewrite selectReviews_run in E. simpl in E. injection E as <-.
    apply in_map_iff in Hin. destruct Hin as (raw & <- & Hraw). simpl.
    split; [| exists raw; repeat split; exact Hraw].
    unfold reviews_counted in Hraw.
    apply order_by_desc_In, in_map_iff in Hraw.
    destruct Hraw as (g & <- & Hg). simpl.
    pose proof (group_by_review (reviews (db c)) _
                  (left_join_review (reviews (db c)) (comments (db c))))
      as Hall.
    rewrite Forall_forall in Hall. apply Hall, Hg.
  - intros review_id inc_votes first rest E.
    rewrite patchComment_run.
    rewrite query_update_votes_run in *.
    destruct (int4in review_id) as [p1 | code1],
             (int4in inc_votes) as [p2 | code2];
      try discriminate E.
    cbv zeta in *.
    destruct (forallb _ _); [| discriminate E].
    simpl in E. injection E as E. simpl.
    rewrite E. split; [reflexivity |].
    rewrite <- E. apply Forall_forall. intros cm Hcm.
    apply filter_In in Hcm. exact (proj1 Hcm).
Qed.

Lemma selectReviews_frame_and_patch_first_witness :
  fst (patchComment "2" "3" conn0) = Resolved (Some (com 2 3 15 50))
  /\ Forall
       (fun cm => In cm (comments (db (snd (patchComment "2" "3" conn0)))))
       [com 2 3 15 50; com 3 3 12 40; com 6 3 12 70].
Proof.
  apply (proj2 (selectReviews_frame_and_patch_first conn0) "2" "3").
  reflexivity.
Defined.

(** * Further properties of the model functions *)

(** ** The vote update, in full *)

Lemma bump_review_id (inc id : Z) (cm : Comment.t) :
  Comment.review_id (bump inc id cm) = Comment.review_id cm.
Proof.
  unfold bump. destruct (Comment.review_id cm =? id); reflexivity.
Qed.


Lemma bump_bump (i1 i2 id : Z) (cm : Comment.t) :
  bump i2 id (bump i1 id cm) = bump (i1 + i2) id cm.
Proof.
  unfold bump.
  destruct (Comment.review_id cm =? id) eqn:E; simpl; rewrite E;
    [| reflexivity].
  unfold Comment.set_votes. simpl. f_equal. lia.
Qed.

Lemma bump_zero (id : Z) (cm : Comment.t) : bump 0 id cm = cm.
Proof.
  unfold bump. destruct (Comment.review_id cm =? id); [| reflexivity].
  destruct cm. unfold Comment.set_votes. simpl. f_equal. lia.
Qed.

Lemma filter_bump (inc id : Z) (cs : list Comment.t) :
  filter (fun cm => Comment.review_id cm =? id) (map (bump inc id) cs)
  = map (bump inc id) (filter (fun cm => Comment.review_id cm =? id) cs).
Proof.
  induction cs as [| cm cs IH]; simpl; [reflexivity |].
  rewrite bump_review_id.
  destruct (Comment.review_id cm =? id); simpl; rewrite IH; reflexivity.
Qed.

(** The first row a filter keeps, and what stands before it. *)
Lemma filter_first {A} (f : A -> bool) (l : list A) (x : A) (rest : list A) :
  filter f l = x :: rest ->
  exists before after,
    l = before ++ x :: after
    /\ (forall y, In y before -> f y = false)
    /\ f x = true.
Proof.
  induction l as [| y l IH]; simpl; [discriminate |].
  destruct (f y) eqn:Ey.
  - intros E. injection E as -> _.
    exists [], l. repeat split; [contradiction | exact Ey].
  - intros E. destruct (IH E) as (before & after & -> & Hb & Hx).
    exists (y :: before), after. repeat split; [| exact Hx].
    intros z [<- | Hz]; [exact Ey | apply Hb, Hz].
Qed.

Lemma with_comments_same (c c' : Conn) :
  db c' = db c -> db (with_comments (comments (db c)) c') = db c.
Proof.
  intros E. unfold with_comments. simpl. rewrite E.
  destruct (db c). reflexivity.
Qed.

(** Every run of [patchComment], by what the storage layer makes of the
    two parameters. *)
Lemma patchComment_cases (review_id inc_votes : string) (c : Conn) :
  match int4in review_id, int4in inc_votes with
  | inl inc, inl id =>
      let cs' := map (bump inc id) (comments (db c)) in
      patchComment review_id inc_votes c
      = (Resolved
           (nth_error (filter (fun cm => Comment.review_id cm =? id) cs') 0),
         with_comments cs' (send (UpdateCommentVotes review_id inc_votes) c))
      \/ patchComment review_id inc_votes c
         = (Rejected (PgError "22003"),
            send (UpdateCommentVotes review_id inc_votes) c)
  | inr code, _ =>
      patchComment review_id inc_votes c
      = (Rejected (PgError code),
         send (UpdateCommentVotes review_id inc_votes) c)
  | inl _, inr code =>
      patchComment review_id inc_votes c
      = (Rejected (PgError code),
         send (UpdateCommentVotes review_id inc_votes) c)
  end.
Proof.
  rewrite patchComment_run, query_update_votes_run.
  destruct (int4in review_id) as [inc | code1],
           (int4in inc_votes) as [id | code2]; try reflexivity.
  cbv zeta.
  change (map (fun cm => if Comment.review_id cm =? id
                         then Comment.set_votes (Comment.votes cm + inc) cm
                         else cm) (comments (db c)))
    with (map (bump inc id) (comments (db c))).
  destruct (forallb _ _); [left | right]; reflexivity.
Qed.

(** When it resolves, the table holds every row bumped. *)
Lemma patchComment_resolved (review_id inc_votes : string) (c : Conn)
    (inc id : Z) (res : option Comment.t) :
  int4in review_id = inl inc -> int4in inc_votes = inl id ->
  fst (patchComment review_id inc_votes c) = Resolved res ->
  patchComment review_id inc_votes c
  = (Resolved
       (nth_error
          (filter (fun cm => Comment.review_id cm =? id)
             (map (bump inc id) (comments (db c)))) 0),
     with_comments (map (bump inc id) (comments (db c)))
       (send (UpdateCommentVotes review_id inc_votes) c)).
Proof.
  intros H1 H2 Hres.
  pose proof (patchComment_cases review_id inc_votes c) as H.
  rewrite H1, H2 in H. cbv zeta in H.
  destruct H as [H | H]; [exact H |].
  rewrite H in Hres. discriminate Hres.
Qed.



(** X2.  A [patchComment] that is rejected has changed no table. *)
Theorem patchComment_rejected_changes_nothing
    (c : Conn) (review_id inc_votes : string) (e : Rejection) :
  fst (patchComment review_id inc_votes c) = Rejected e ->
  db (snd (patchComment review_id inc_votes c)) = db c.
Proof.
  intros Hrej.
  pose proof (patchComment_cases review_id inc_votes c) as H.
  destruct (int4in review_id) as [inc | code1],
           (int4in inc_votes) as [id | code2];
    [cbv zeta in H; destruct H as [H | H] | | |];
    rewrite H in *; try reflexivity.
  discriminate Hrej.
Qed.

Lemma patchComment_rejected_changes_nothing_witness :
  fst (patchComment "2147483647" "2" conn0) = Rejected (PgError "22003")
  /\ db (snd (patchComment "2147483647" "2" conn0)) = db conn0.
Proof.
  split; [reflexivity |].
  apply (patchComment_rejected_changes_nothing conn0 "2147483647" "2"
           (PgError "22003")).
  reflexivity.
Defined.

(** X3.  When both parameters are accepted and [patchComment] resolves,
    it resolves to [undefined] only if no comment has the [review_id]
    that the second parameter denotes; otherwise to the first such
    comment in table order, with the first parameter added to its votes
    and as the table now holds it. *)
Theorem patchComment_returns_first_updated
    (c : Conn) (review_id inc_votes : string) (inc id : Z)
    (res : option Comment.t) :
  int4in review_id = inl inc -> int4in inc_votes = inl id ->
  fst (patchComment review_id inc_votes c) = Resolved res ->
  match res with
  | None =>
      forall cm, In cm (comments (db c)) -> Comment.review_id cm <> id
  | Some row =>
      exists before old after,
        comments (db c) = before ++ old :: after
        /\ (forall cm, In cm before -> Comment.review_id cm <> id)
        /\ Comment.review_id old = id
        /\ row = Comment.set_votes (Comment.votes old + inc) old
        /\ In row (comments (db (snd (patchComment review_id inc_votes c))))
  end.
Proof.
  intros H1 H2 Hres.
  pose proof (patchComment_resolved _ _ _ _ _ _ H1 H2 Hres) as Hrun.
  rewrite Hrun in Hres |- *. simpl in Hres. injection Hres as <-.
  rewrite filter_bump.
  destruct (filter (fun cm => Comment.review_id cm =? id) (comments (db c)))
    as [| old rest] eqn:E; simpl.
  - intros cm Hcm Hid.
    assert (Hin : In cm (filter (fun cm => Comment.review_id cm =? id)
                           (comments (db c)))).
    { apply filter_In. split; [exact Hcm | apply Z.eqb_eq, Hid]. }
    rewrite E in Hin. exact Hin.
  - destruct (filter_first _ _ _ _ E) as (before & after & Hl & Hb & Hold).
    exists before, old, after.
    assert (Hrow : bump inc id old
                   = Comment.set_votes (Comment.votes old + inc) old).
    { unfold bump. rewrite Hold. reflexivity. }
    repeat split.
    + exact Hl.
    + intros cm Hcm. apply Z.eqb_neq, Hb, Hcm.
    + apply Z.eqb_eq, Hold.
    + exact Hrow.
    + apply in_map. rewrite Hl. apply in_or_app. right. left. reflexivity.
Qed.

Lemma patchComment_returns_first_updated_witness :
  exists before old after,
    comments (db conn0) = before ++ old :: after
    /\ (forall cm, In cm before -> Comment.review_id cm <> 3)
    /\ Comment.review_id old = 3
    /\ com 2 3 15 50 = Comment.set_votes (Comment.votes old + 2) old
    /\ In (com 2 3 15 50) (comments (db (snd (patchComment "2" "3" conn0)))).
Proof.
  exact (patchComment_returns_first_updated conn0 "2" "3" 2 3
           (Some (com 2 3 15 50)) eq_refl eq_refl eq_refl).
Defined.

(** X4.  Two [patchComment]s in a row that look for the same [review_id]
    and both resolve leave the table as one update by the sum of the two
    amounts would: the comments with that [review_id] have gained the
    sum, the others are as they were. *)
Theorem patchComment_twice_adds
    (c : Conn) (a1 a2 b : string) (i1 i2 id : Z)
    (r1 r2 : option Comment.t) :
  int4in a1 = inl i1 -> int4in a2 = inl i2 -> int4in b = inl id ->
  fst (patchComment a1 b c) = Resolved r1 ->
  fst (patchComment a2 b (snd (patchComment a1 b c))) = Resolved r2 ->
  comments (db (snd (patchComment a2 b (snd (patchComment a1 b c)))))
  = map (bump (i1 + i2) id) (comments (db c)).
Proof.
  intros H1 H2 Hb Hr1 Hr2.
  pose proof (patchComment_resolved _ _ _ _ _ _ H1 Hb Hr1) as E1.
  pose proof (patchComment_resolved _ _ _ _ _ _ H2 Hb Hr2) as E2.
  rewrite E2. rewrite E1. simpl.
  rewrite map_map. apply map_ext. intros cm. apply bump_bump.
Qed.

Lemma patchComment_twice_adds_witness :
  map Comment.votes
    (comments (db (snd (patchComment "5" "3"
                          (snd (patchComment "2" "3" conn0))))))
  = [16; 20; 17; 16; 13; 17].
Proof.
  rewrite (patchComment_twice_adds conn0 "2" "5" "3" 2 5 3
             (Some (com 2 3 15 50)) (Some (com 2 3 20 50))
             eq_refl eq_refl eq_refl eq_refl eq_refl).
  reflexivity.
Defined.

(** X5.  A [patchComment] followed by one with the opposite amount for
    the same [review_id], both resolving, restores the tables. *)
Theorem patchComment_undo
    (c : Conn) (a1 a2 b : string) (i id : Z) (r1 r2 : option Comment.t) :
  int4in a1 = inl i -> int4in a2 = inl (- i) -> int4in b = inl id ->
  fst (patchComment a1 b c) = Resolved r1 ->
  fst (patchComment a2 b (snd (patchComment a1 b c))) = Resolved r2 ->
  db (snd (patchComment a2 b (snd (patchComment a1 b c)))) = db c.
Proof.
  intros H1 H2 Hb Hr1 Hr2.
  pose proof (patchComment_resolved _ _ _ _ _ _ H1 Hb Hr1) as E1.
  pose proof (patchComment_resolved _ _ _ _ _ _ H2 Hb Hr2) as E2.
  rewrite E2. rewrite E1. simpl.
  rewrite map_map.
  rewrite (map_ext _ (fun cm => cm)).
  - rewrite map_id. destruct (db c). reflexivity.
  - intros cm. rewrite bump_bump, Z.add_opp_diag_r. apply bump_zero.
Qed.

Lemma patchComment_undo_witness :
  db (snd (patchComment "-2" "3" (snd (patchComment "2" "3" conn0))))
  = db conn0.
Proof.
  exact (patchComment_undo conn0 "2" "-2" "3" 2 3
           (Some (com 2 3 15 50)) (Some (com 2 3 13 50))
           eq_refl eq_refl eq_refl eq_refl eq_refl).
Defined.

(** ** The two lookups together *)

(** X6.  [selectCommentsFromReview] is rejected exactly when
    [selectReviewFromId] is for the same parameter and tables, and with
    the same object: the 404 for a missing review, the storage layer's
    error for a parameter it refuses. *)
Theorem selectCommentsFromReview_rejected_as_selectReviewFromId
    (c : Conn) (reviewId : string) (e : Rejection) :
  fst (selectCommentsFromReview reviewId c) = Rejected e
  <-> fst (selectReviewFromId reviewId c) = Rejected e.
Proof.
  rewrite selectCommentsFromReview_run, selectReviewFromId_run.
  destruct (int4in reviewId) as [id | code];
    [destruct (filter _ _) as [| r l] |]; simpl;
    split; intros H; try discriminate H;
    injection H as <-; reflexivity.
Qed.

(** X7.  A review that [selectReviewFromId] resolves to is a row of
    [reviews] whose [review_id] is what the storage layer reads the
    parameter as: never a row with another id, never a made-up row. *)
Theorem selectReviewFromId_sound
    (c : Conn) (reviewId : string) (r : Review.t) :
  fst (selectReviewFromId reviewId c) = Resolved r ->
  In r (reviews (db c)) /\ row_matches reviewId r.
Proof.
  rewrite selectReviewFromId_run. unfold row_matches.
  destruct (int4in reviewId) as [id | code]; [| discriminate].
  destruct (filter _ _) as [| r' l] eqn:E; [discriminate |].
  simpl. intros H. injection H as <-.
  apply filter_id_head in E. destruct E as [Hin <-].
  split; [exact Hin | reflexivity].
Qed.

Lemma selectReviewFromId_sound_witness :
  In (rev 2 "Jenga" 300) (reviews (db conn0))
  /\ row_matches " +2 " (rev 2 "Jenga" 300).
Proof.
  apply (selectReviewFromId_sound conn0 " +2 "). reflexivity.
Defined.

(** X8.  When [selectCommentsFromReview] resolves, the parameter denotes
    the id of a review of the table, and the result holds the comments of
    that review and nothing else: each stored comment with that
    [review_id] as often as the table has it, and no other row. *)
Theorem selectCommentsFromReview_exact
    (c : Conn) (reviewId : string) (rows : list Comment.t) :
  fst (selectCommentsFromReview reviewId c) = Resolved rows ->
  exists id,
    int4in reviewId = inl id
    /\ review_exists (db c) id
    /\ Permutation rows
         (filter (fun cm => Comment.review_id cm =? id) (comments (db c)))
    /\ (forall cm,
          In cm rows
          <-> In cm (comments (db c)) /\ Comment.review_id cm = id).
Proof.
  rewrite selectCommentsFromReview_run.
  destruct (int4in reviewId) as [id | code]; [| discriminate].
  destruct (filter (fun r => Review.review_id r =? id) (reviews (db c)))
    as [| r l] eqn:E; [discriminate |].
  simpl. intros H. injection H as <-.
  exists id. split; [reflexivity |]. split.
  - apply filter_id_head in E. exists r. exact E.
  - split; [apply order_by_desc_perm |].
    intros cm. rewrite order_by_desc_In, filter_In, Z.eqb_eq. reflexivity.
Qed.

Lemma selectCommentsFromReview_exact_witness :
  exists id,
    int4in "2" = inl id
    /\ review_exists (db conn0) id
    /\ Permutation [com 4 2 16 60; com 5 2 13 30; com 1 2 16 10]
         (filter (fun cm => Comment.review_id cm =? id) (comments (db conn0)))
    /\ (forall cm,
          In cm [com 4 2 16 60; com 5 2 13 30; com 1 2 16 10]
          <-> In cm (comments (db conn0)) /\ Comment.review_id cm = id).
Proof.
  apply (selectCommentsFromReview_exact conn0 "2"). reflexivity.
Defined.

(** X9.  [selectCommentsFromReview] sends the statement on [comments]
    exactly when it resolves: a call that is rejected, for a missing
    review or for a parameter the storage layer refuses, has sent the
    statement on [reviews] and nothing else. *)
Theorem selectCommentsFromReview_queries_comments_iff_resolved
    (c : Conn) (reviewId : string) :
  ((exists rows, fst (selectCommentsFromReview reviewId c) = Resolved rows)
   /\ sent (snd (selectCommentsFromReview reviewId c))
      = sent c ++ [SelectReviewById reviewId;
                   SelectCommentsByReview reviewId])
  \/ ((exists e, fst (selectCommentsFromReview reviewId c) = Rejected e)
      /\ sent (snd (selectCommentsFromReview reviewId c))
         = sent c ++ [SelectReviewById reviewId]).
Proof.
  rewrite selectCommentsFromReview_run.
  destruct (int4in reviewId) as [id | code];
    [destruct (filter _ _) as [| r l] |].
  - right. split; [eexists |]; reflexivity.
  - left. split; [eexists; reflexivity |].
    simpl. rewrite <- app_assoc. reflexivity.
  - right. split; [eexists |]; reflexivity.
Qed.

(** ** The listing and the lookups together *)

(** X10.  Whatever the tables hold, [selectReviews] resolves, and every
    [comment_count] of its result is an integer that is not negative:
    [parseInt] never answers NaN there. *)
Theorem selectReviews_counts_are_naturals (c : Conn) :
  exists rows,
    fst (selectReviews c) = Resolved rows
    /\ Forall (fun row => exists n, comment_count row = Num n /\ 0 <= n) rows.
Proof.
  rewrite selectReviews_run. eexists. split; [reflexivity |].
  apply Forall_forall. intros row Hin.
  apply in_map_iff in Hin. destruct Hin as (raw & <- & Hraw).
  unfold reviews_counted in Hraw.
  apply order_by_desc_In, in_map_iff in Hraw.
  destruct Hraw as (g & <- & _). simpl.
  exists (count_review_id g).
  assert (H0 : 0 <= count_review_id g) by (unfold count_review_id; lia).
  split; [apply parseInt_int_out, H0 | exact H0].
Qed.

Lemma selectReviews_rows_pkey (c : Conn) :
  reviews_pkey (db c) ->
  exists rows,
    fst (selectReviews c) = Resolved rows
    /\ Permutation rows
         (map (fun r => {| row_review := r;
                           comment_count := Num (comment_total (db c) r) |})
            (reviews (db c))).
Proof.
  intros Hpk. rewrite selectReviews_run, (reviews_counted_pkey _ Hpk).
  eexists. split; [reflexivity |].
  rewrite order_by_desc_perm, map_map.
  erewrite map_ext; [reflexivity |].
  intros r. simpl.
  rewrite parseInt_int_out by apply comment_total_nonneg. reflexivity.
Qed.

Lemma comment_total_length (d : Db) (r : Review.t) :
  comment_total d r
  = Z.of_nat
      (List.length
         (order_by_desc Comment.created_at
            (filter (fun cm => Comment.review_id cm =? Review.review_id r)
               (comments d)))).
Proof.
  unfold comment_total. f_equal. symmetry.
  apply Permutation_length, order_by_desc_perm.
Qed.

(** X11.  With [review_id] the primary key of [reviews], the
    [comment_count] that [selectReviews] gives a review is the number of
    comments that [selectCommentsFromReview] returns for the review's id
    (sent as its decimal text). *)
Theorem comment_count_is_number_of_comments_listed
    (c : Conn) (r : Review.t) :
  reviews_pkey (db c) ->
  In r (reviews (db c)) ->
  in_int4 (Review.review_id r) = true ->
  exists rows cms,
    fst (selectReviews c) = Resolved rows
    /\ fst (selectCommentsFromReview (int_out (Review.review_id r)) c)
       = Resolved cms
    /\ In {| row_review := r;
             comment_count := Num (Z.of_nat (List.length cms)) |} rows.
Proof.
  intros Hpk Hin Hrange.
  destruct (selectReviews_rows_pkey c Hpk) as (rows & Erows & Hperm).
  exists rows. eexists. split; [exact Erows |].
  rewrite selectCommentsFromReview_run, (int4in_int_out _ Hrange).
  destruct (filter (fun r' => Review.review_id r' =? Review.review_id r)
              (reviews (db c))) as [| r' l] eqn:E.
  - exfalso. apply filter_id_nil in E. apply E. exists r.
    split; [exact Hin | reflexivity].
  - split; [reflexivity |].
    eapply Permutation_in; [symmetry; exact Hperm |].
    apply in_map_iff. exists r. split; [| exact Hin].
    rewrite comment_total_length. reflexivity.
Qed.

Lemma comment_count_is_number_of_comments_listed_witness :
  exists rows cms,
    fst (selectReviews conn0) = Resolved rows
    /\ fst (selectCommentsFromReview (int_out 2) conn0) = Resolved cms
    /\ In {| row_review := rev 2 "Jenga" 300;
             comment_count := Num (Z.of_nat (List.length cms)) |} rows.
Proof.
  apply (comment_count_is_number_of_comments_listed conn0
           (rev 2 "Jenga" 300) fixture_pkey).
  - right. left. reflexivity.
  - reflexivity.
Defined.

Lemma selectReviews_row_stored (c : Conn) (row : ReviewRow JsNumber) :
  In row
    (map (fun review =>
            {| row_review := row_review review;
               comment_count := parseInt (comment_count review) |})
       (reviews_counted (db c))) ->
  In (row_review row) (reviews (db c)).
Proof.
  intros Hin.
  apply in_map_iff in Hin. destruct Hin as (raw & <- & Hraw). simpl.
  unfold reviews_counted in Hraw.
  apply order_by_desc_In, in_map_iff in Hraw.
  destruct Hraw as (g & <- & Hg). simpl.
  pose proof (group_by_review (reviews (db c)) _
                (left_join_review (reviews (db c)) (comments (db c))))
    as Hall.
  rewrite Forall_forall in Hall. apply Hall, Hg.
Qed.

(** X12.  With [review_id] the primary key of [reviews], the listing and
    the lookup agree: the review of every row of [selectReviews] is what
    [selectReviewFromId] resolves to for the decimal text of its id, and
    a review that [selectReviewFromId] resolves to, for any parameter, is
    the review of a row of [selectReviews]. *)
Theorem listing_and_lookup_agree (c : Conn) :
  reviews_pkey (db c) ->
  exists rows,
    fst (selectReviews c) = Resolved rows
    /\ (forall row,
          In row rows ->
          in_int4 (Review.review_id (row_review row)) = true ->
          fst (selectReviewFromId
                 (int_out (Review.review_id (row_review row))) c)
          = Resolved (row_review row))
    /\ (forall reviewId r,
          fst (selectReviewFromId reviewId c) = Resolved r ->
          exists row, In row rows /\ row_review row = r).
Proof.
  intros Hpk.
  destruct (selectReviews_rows_pkey c Hpk) as (rows & Erows & Hperm).
  exists rows. split; [exact Erows |]. split.
  - intros row Hrow Hrange.
    assert (Hin : In (row_review row) (reviews (db c))).
    { rewrite selectReviews_run in Erows. simpl in Erows.
      injection Erows as <-. apply selectReviews_row_stored, Hrow. }
    rewrite selectReviewFromId_run, (int4in_int_out _ Hrange).
    rewrite (filter_id_pkey _ _ Hpk Hin). reflexivity.
  - intros reviewId r Hres.
    rewrite selectReviewFromId_run in Hres.
    destruct (int4in reviewId) as [id | code]; [| discriminate].
    destruct (filter _ _) as [| r' l] eqn:E; [discriminate |].
    simpl in Hres. injection Hres as ->.
    apply filter_id_head in E. destruct E as [Hin _].
    eexists. split.
    + eapply Permutation_in; [symmetry; exact Hperm |].
      apply in_map_iff. exists r. split; [reflexivity | exact Hin].
    + reflexivity.
Qed.

Lemma listing_and_lookup_agree_witness :
  exists rows,
    fst (selectReviews conn0) = Resolved rows
    /\ (forall row,
          In row rows ->
          in_int4 (Review.review_id (row_review row)) = true ->
          fst (selectReviewFromId
                 (int_out (Review.review_id (row_review row))) conn0)
          = Resolved (row_review row))
    /\ (forall reviewId r,
          fst (selectReviewFromId reviewId conn0) = Resolved r ->
          exists row, In row rows /\ row_review row = r).
Proof.
  exact (listing_and_lookup_agree conn0 fixture_pkey).
Defined.

(** ** The counts of a listing, summed *)

Lemma sum_over_ext (f g : Review.t -> Z) (rs : list Review.t) :
  (forall r, f r = g r) -> sum_over f rs = sum_over g rs.
Proof.
  intros H. induction rs as [| r rs IH]; simpl; [reflexivity |].
  rewrite H, IH. reflexivity.
Qed.

Lemma sum_over_add (f g : Review.t -> Z) (rs : list Review.t) :
  sum_over (fun r => f r + g r) rs = sum_over f rs + sum_over g rs.
Proof.
  induction rs as [| r rs IH]; simpl; [reflexivity |].
  rewrite IH. lia.
Qed.

Lemma sum_over_zero (rs : list Review.t) : sum_over (fun _ => 0) rs = 0.
Proof.
  induction rs as [| r rs IH]; simpl; [reflexivity | exact IH].
Qed.

(** Under the key, a given id is the id of one review or of none. *)
Lemma sum_over_indicator (rs : list Review.t) (id : Z) :
  NoDup (map Review.review_id rs) ->
  sum_over (fun r => if Review.review_id r =? id then 1 else 0) rs
  = if existsb (fun r => Review.review_id r =? id) rs then 1 else 0.
Proof.
  induction rs as [| r rs IH]; intros Hnd; simpl; [reflexivity |].
  inversion Hnd as [| ? ? Hnotin Hnd']; subst.
  rewrite (IH Hnd').
  destruct (Z.eqb_spec (Review.review_id r) id) as [E | _]; simpl;
    [| reflexivity].
  destruct (existsb (fun r' => Review.review_id r' =? id) rs) eqn:Ex;
    [| reflexivity].
  exfalso. apply existsb_exists in Ex. destruct Ex as (r' & Hin & Hid).
  apply Hnotin. rewrite E. apply Z.eqb_eq in Hid. rewrite <- Hid.
  apply in_map. exact Hin.
Qed.

(** Counting the comments review by review counts each comment whose
    review is in the table once. *)
Lemma sum_over_comment_totals (rs : list Review.t) (cs : list Comment.t) :
  NoDup (map Review.review_id rs) ->
  sum_over
    (fun r =>
       Z.of_nat
         (List.length
            (filter (fun cm => Comment.review_id cm =? Review.review_id r)
               cs)))
    rs
  = Z.of_nat
      (List.length
         (filter
            (fun cm =>
               existsb (fun r => Review.review_id r =? Comment.review_id cm)
                 rs)
            cs)).
Proof.
  intros Hnd. induction cs as [| cm cs IH]; simpl.
  - apply sum_over_zero.
  - rewrite (sum_over_ext _
               (fun r =>
                  (if Review.review_id r =? Comment.review_id cm
                   then 1 else 0)
                  + Z.of_nat
                      (List.length
                         (filter
                            (fun cm' =>
                               Comment.review_id cm' =? Review.review_id r)
                            cs)))).
    + rewrite sum_over_add, IH, (sum_over_indicator _ _ Hnd).
      destruct (existsb _ rs); simpl List.length; lia.
    + intros r. rewrite (Z.eqb_sym (Comment.review_id cm)).
      destruct (Review.review_id r =? Comment.review_id cm);
        simpl List.length; lia.
Qed.

Lemma count_sum_perm (l l' : list (ReviewRow JsNumber)) :
  Permutation l l' -> count_sum l = count_sum l'.
Proof.
  induction 1; simpl; lia.
Qed.

Lemma count_sum_totals (f : Review.t -> Z) (rs : list Review.t) :
  count_sum
    (map (fun r => {| row_review := r; comment_count := Num (f r) |}) rs)
  = sum_over f rs.
Proof.
  induction rs as [| r rs IH]; simpl; [reflexivity |].
  rewrite IH. reflexivity.
Qed.

Lemma filter_all {A} (f : A -> bool) (l : list A) :
  (forall x, In x l -> f x = true) -> filter f l = l.
Proof.
  induction l as [| x l IH]; intros H; simpl; [reflexivity |].
  rewrite (H x) by (left; reflexivity). f_equal.
  apply IH. intros y Hy. apply H. right. exact Hy.
Qed.

(** X13.  With [review_id] the primary key of [reviews] and every comment
    referencing a review of the table, the [comment_count]s of the rows
    of [selectReviews] add up to the number of rows of [comments]: the
    listing counts every comment once. *)
Theorem selectReviews_counts_every_comment_once (c : Conn) :
  reviews_pkey (db c) ->
  comments_fkey (db c) ->
  exists rows,
    fst (selectReviews c) = Resolved rows
    /\ count_sum rows = Z.of_nat (List.length (comments (db c))).
Proof.
  intros Hpk Hfk.
  destruct (selectReviews_rows_pkey c Hpk) as (rows & Erows & Hperm).
  exists rows. split; [exact Erows |].
  rewrite (count_sum_perm _ _ Hperm), count_sum_totals.
  unfold comment_total. rewrite (sum_over_comment_totals _ _ Hpk).
  rewrite filter_all; [reflexivity |].
  intros cm Hcm. destruct (Hfk cm Hcm) as (r & Hr & Hid).
  apply existsb_exists. exists r.
  split; [exact Hr | apply Z.eqb_eq, Hid].
Qed.

Lemma fixture_fkey : comments_fkey (db conn0).
Proof.
  intros cm Hcm. simpl in Hcm.
  repeat (destruct Hcm as [<- | Hcm];
          [first [exact (ex_intro _ (rev 2 "Jenga" 300)
                           (conj (or_intror (or_introl eq_refl)) eq_refl))
                 | exact (ex_intro _ (rev 3 "Ultimate" 200)
                            (conj (or_intror (or_intror (or_introl eq_refl)))
                               eq_refl))] |]).
  contradiction.
Defined.

Lemma selectReviews_counts_every_comment_once_witness :
  exists rows,
    fst (selectReviews conn0) = Resolved rows /\ count_sum rows = 6.
Proof.
  exact (selectReviews_counts_every_comment_once conn0
           fixture_pkey fixture_fkey).
Defined.

(** ** Reading after a vote update *)

Lemma filter_map_same {A} (p : A -> bool) (f : A -> A) (l : list A) :
  (forall x, p (f x) = p x) -> filter p (map f l) = map f (filter p l).
Proof.
  intros H. induction l as [| x l IH]; simpl; [reflexivity |].
  rewrite H. destruct (p x); simpl; rewrite IH; reflexivity.
Qed.

Lemma insert_desc_map {A} (key : A -> Z) (f : A -> A) (x : A) (l : list A) :
  (forall y, key (f y) = key y) ->
  insert_desc key (f x) (map f l) = map f (insert_desc key x l).
Proof.
  intros H. induction l as [| y l IH]; simpl; [reflexivity |].
  rewrite !H. destruct (key y <=? key x); simpl; [reflexivity |].
  rewrite IH. reflexivity.
Qed.

(** Ordering by a column commutes with an update of another column. *)
Lemma order_by_desc_map {A} (key : A -> Z) (f : A -> A) (l : list A) :
  (forall y, key (f y) = key y) ->
  order_by_desc key (map f l) = map f (order_by_desc key l).
Proof.
  intros H. induction l as [| x l IH]; simpl; [reflexivity |].
  rewrite IH. apply insert_desc_map, H.
Qed.

Lemma bump_created_at (inc id : Z) (cm : Comment.t) :
  Comment.created_at (bump inc id cm) = Comment.created_at cm.
Proof.
  unfold bump. destruct (Comment.review_id cm =? id); reflexivity.
Qed.

(** The tables after any [patchComment]: as before, or with every comment
    bumped by what the storage layer read the parameters as. *)
Lemma patchComment_db (review_id inc_votes : string) (c : Conn) :
  db (snd (patchComment review_id inc_votes c)) = db c
  \/ exists inc id,
       int4in review_id = inl inc /\ int4in inc_votes = inl id
       /\ db (snd (patchComment review_id inc_votes c))
          = {| categories := categories (db c); users := users (db c);
               reviews := reviews (db c);
               comments := map (bump inc id) (comments (db c)) |}.
Proof.
  pose proof (patchComment_cases review_id inc_votes c) as H.
  destruct (int4in review_id) as [inc | code1],
           (int4in inc_votes) as [id | code2];
    [cbv zeta in H; destruct H as [H | H] | | |];
    rewrite H; try (left; reflexivity).
  right. exists inc, id. repeat split.
Qed.

Lemma comment_total_bump (d : Db) (inc id : Z) (r : Review.t) :
  comment_total
    {| categories := categories d; users := users d; reviews := reviews d;
       comments := map (bump inc id) (comments d) |} r
  = comment_total d r.
Proof.
  unfold comment_total. simpl.
  rewrite filter_map_same by (intros cm; rewrite bump_review_id; reflexivity).
  rewrite length_map. reflexivity.
Qed.

(** X14.  A vote update does not show in the reviews: after any
    [patchComment], resolved or rejected, [selectReviewFromId] has for
    every parameter the outcome it had before, and, with [review_id] the
    primary key of [reviews], so has [selectReviews], comment counts
    included. *)
Theorem patchComment_leaves_review_reads
    (c : Conn) (review_id inc_votes : string) :
  (forall reviewId,
      fst (selectReviewFromId reviewId
             (snd (patchComment review_id inc_votes c)))
      = fst (selectReviewFromId reviewId c))
  /\ (reviews_pkey (db c) ->
      fst (selectReviews (snd (patchComment review_id inc_votes c)))
      = fst (selectReviews c)).
Proof.
  destruct (patchComment_db review_id inc_votes c)
    as [E | (inc & id & _ & _ & E)].
  - split.
    + intros reviewId. apply (proj2 (selectReviewFromId_reads_only _ c)), E.
    + intros _. apply (proj2 (selectReviews_reads_only c)), E.
  - split.
    + intros reviewId. rewrite !selectReviewFromId_run, E. reflexivity.
    + intros Hpk. rewrite !selectReviews_run. simpl. f_equal. f_equal.
      rewrite E, !reviews_counted_pkey by exact Hpk. simpl.
      f_equal. apply map_ext. intros r.
      rewrite comment_total_bump. reflexivity.
Qed.

Lemma patchComment_leaves_review_reads_witness :
  fst (selectReviews (snd (patchComment "2" "3" conn0)))
  = fst (selectReviews conn0).
Proof.
  exact (proj2 (patchComment_leaves_review_reads conn0 "2" "3") fixture_pkey).
Defined.

(** X15.  After a [patchComment] that resolved, with the parameters read
    as amount [inc] and id [id], [selectCommentsFromReview] is rejected
    as it was before, and where it resolved before it resolves to the
    same comments in the same order, the comments of review [id] with
    [inc] more votes and the others untouched. *)
Theorem patchComment_then_selectCommentsFromReview
    (c : Conn) (review_id inc_votes reviewId : string) (inc id : Z)
    (res : option Comment.t) :
  int4in review_id = inl inc -> int4in inc_votes = inl id ->
  fst (patchComment review_id inc_votes c) = Resolved res ->
  fst (selectCommentsFromReview reviewId
         (snd (patchComment review_id inc_votes c)))
  = match fst (selectCommentsFromReview reviewId c) with
    | Resolved rows => Resolved (map (bump inc id) rows)
    | Rejected e => Rejected e
    end.
Proof.
  intros H1 H2 Hres.
  rewrite (patchComment_resolved _ _ _ _ _ _ H1 H2 Hres).
  rewrite !selectCommentsFromReview_run. simpl.
  destruct (int4in reviewId) as [id' | code]; [| reflexivity].
  destruct (filter _ (reviews (db c))) as [| r l]; [reflexivity |].
  simpl. f_equal.
  rewrite filter_map_same by (intros cm; rewrite bump_review_id; reflexivity).
  apply order_by_desc_map, bump_created_at.
Qed.

Lemma patchComment_then_selectCommentsFromReview_witness :
  fst (selectCommentsFromReview "3" (snd (patchComment "2" "3" conn0)))
  = Resolved [ com 6 3 12 70; com 2 3 15 50; com 3 3 12 40 ].
Proof.
  rewrite (patchComment_then_selectCommentsFromReview conn0 "2" "3" "3" 2 3
             (Some (com 2 3 15 50)) eq_refl eq_refl eq_refl).
  reflexivity.
Defined.
